(** * Realtime exchange gateway: the REST executor, the exchange stream
      connection and the client subscription hub of the trading server.

    The development follows [backend/src/index.js] (class [TradingServer]) and
    [backend/src/api/pionexClient.js] (class [PionexClient]).  Asynchronous
    code is written in state-passing style over an explicit world; exceptions
    are the right summand of a result. *)

From Equations Require Import Equations.
From Stdlib Require Import ZArith String Ascii List Bool Lia DecimalString.
From stdpp Require Import base option list strings.
Import ListNotations.

Local Open Scope Z_scope.

(** ** JavaScript values and the few engine operations the code relies on *)

Set Warnings "-register-all".

Module JS.

(** A value as [JSON.parse] or an object literal produces it, plus
    [undefined] (the result of reading a missing property).  Numbers are
    kept abstract: the code only converts them to text and tests their
    truthiness. *)
Inductive value (num : Type) : Type :=
| VUndefined
| VNull
| VBool (b : bool)
| VNum (n : num)
| VStr (s : string)
| VArr (elems : list (value num))
| VObj (props : list (string * value num)).

Arguments VUndefined {num}.
Arguments VNull {num}.
Arguments VBool {num} b.
Arguments VNum {num} n.
Arguments VStr {num} s.
Arguments VArr {num} elems.
Arguments VObj {num} props.

(** What the platform provides and the repository does not define:
    number printing and truthiness, [JSON.stringify] and
    [crypto.createHmac('sha256', key).update(msg).digest('hex')]. *)
Class Runtime (num : Type) : Type := {
  num_to_string : num -> string;
  num_truthy : num -> bool;
  JSON_stringify : value num -> string;
  hmac_sha256_hex : string -> string -> string
}.

(** The error object axios rejects with: [error.request] is set once the
    request was sent, [error.response] once a response arrived. *)
Record AxiosErr (num : Type) : Type := {
  ax_message : string;
  ax_request : bool;
  ax_response : option (Z * value num)
}.

Arguments ax_message {num} _.
Arguments ax_request {num} _.
Arguments ax_response {num} _.

(** Exceptions that reach the code under study. *)
Inductive exn (num : Type) : Type :=
| TypeError
| SyntaxError
| Error (message : string)
| AxiosError (e : AxiosErr num).

Arguments TypeError {num}.
Arguments SyntaxError {num}.
Arguments Error {num} message.
Arguments AxiosError {num} e.

Definition result (num A : Type) : Type := (A + exn num)%type.

(** Own-property lookup in a property list. *)
Fixpoint own {num} (props : list (string * value num)) (k : string)
  : option (value num) :=
  match props with
  | [] => None
  | (k', v) :: rest => if String.eqb k' k then Some v else own rest k
  end.

(** [v.k] for the property names the code reads ([type], [data],
    [channel], [symbol], [message], [error], [event]): none of them is
    defined on a built-in prototype, so only objects can answer; reading
    from [undefined] or [null] throws. *)
Definition get {num} (v : value num) (k : string) : result num (value num) :=
  match v with
  | VUndefined | VNull => inr TypeError
  | VObj props => inl (default VUndefined (own props k))
  | _ => inl VUndefined
  end.

Definition truthy {num} `{Runtime num} (v : value num) : bool :=
  match v with
  | VUndefined | VNull => false
  | VBool b => b
  | VNum n => num_truthy n
  | VStr s => negb (String.eqb s "")
  | VArr _ | VObj _ => true
  end.

(** [a || b] *)
Definition or_else {num} `{Runtime num} (a b : value num) : value num :=
  if truthy a then a else b.

(** [Array.prototype.join] with the default separator, over a conversion
    [f] of the elements: [null] and [undefined] elements print as nothing. *)
Definition piece {num} (f : value num -> result num string) (x : value num)
  : result num string :=
  match x with
  | VUndefined | VNull => inl ""%string
  | _ => f x
  end.

Fixpoint join_with {num} (f : value num -> result num string)
    (l : list (value num)) : result num string :=
  match l with
  | [] => inl ""%string
  | x :: rest =>
      match piece f x, rest with
      | inr e, _ => inr e
      | inl p, [] => inl p
      | inl p, _ :: _ =>
          match join_with f rest with
          | inr e => inr e
          | inl r => inl (p +:+ "," +:+ r)
          end
      end
  end.

(** String conversion as a template literal performs it.  An array is
    joined with commas; a plain object prints as [[object Object]], except
    that an own [toString] property (never callable in parsed data) makes
    the conversion throw. *)
Fixpoint ToString {num} `{Runtime num} (v : value num) : result num string :=
  match v with
  | VUndefined => inl "undefined"%string
  | VNull => inl "null"%string
  | VBool true => inl "true"%string
  | VBool false => inl "false"%string
  | VNum n => inl (num_to_string n)
  | VStr s => inl s
  | VArr elems => join_with ToString elems
  | VObj props =>
      match own props "toString" with
      | Some _ => inr TypeError
      | None => inl "[object Object]"%string
      end
  end.

(** Integers (status codes, millisecond timestamps) print in decimal. *)
Definition Z_to_string (z : Z) : string :=
  NilZero.string_of_int (Z.to_int z).

Definition upper_ascii (c : ascii) : ascii :=
  let n := nat_of_ascii c in
  if (97 <=? n)%nat && (n <=? 122)%nat then ascii_of_nat (n - 32) else c.

Definition lower_ascii (c : ascii) : ascii :=
  let n := nat_of_ascii c in
  if (65 <=? n)%nat && (n <=? 90)%nat then ascii_of_nat (n + 32) else c.

Fixpoint map_string (f : ascii -> ascii) (s : string) : string :=
  match s with
  | EmptyString => EmptyString
  | String c rest => String (f c) (map_string f rest)
  end.

(** [s.toUpperCase()] and [s.toLowerCase()] on strings of ASCII
    characters, which is all that HTTP methods and trading symbols
    contain: there the JavaScript functions map letter by letter, as these
    do.  Outside ASCII the JavaScript functions follow Unicode (and can
    change the length of the string); that part is not modelled, and a
    statement that rests on a law of these maps is made for ASCII strings
    only. *)
Definition toUpperCase : string -> string := map_string upper_ascii.
Definition toLowerCase : string -> string := map_string lower_ascii.

(** [v === "literal"], the test a [switch] over string cases performs. *)
Definition is_string {num} (v : value num) (literal : string) : bool :=
  match v with
  | VStr s => String.eqb s literal
  | _ => false
  end.

(** [x || d] for a numeric option of a constructor: a missing or zero
    option falls back to the default. *)
Definition number_or (x : option Z) (d : Z) : Z :=
  match x with
  | Some v => if v =? 0 then d else v
  | None => d
  end.



(** A parameter default [x = d]: it applies to [undefined] only. *)
Definition default_arg {num} (d x : value num) : value num :=
  match x with
  | VUndefined => d
  | _ => x
  end.

End JS.

Export JS.

(** ** The [ws] library's connection states *)

Module WS.

Inductive ReadyState := CONNECTING | OPEN | CLOSING | CLOSED.

Definition is_open (s : ReadyState) : bool :=
  match s with OPEN => true | _ => false end.

End WS.

(** ** PionexClient: signed REST calls with retry, and the exchange stream *)

Module PionexClient.

(** The constructor's [options] argument, restricted to the numeric
    settings this development uses. *)
Record Options := {
  opt_maxRetries : option Z;
  opt_retryDelay : option Z;
  opt_backoffMultiplier : option Z;
  opt_maxReconnectAttempts : option Z;
  opt_reconnectDelay : option Z
}.

Definition no_options : Options :=
  {| opt_maxRetries := None; opt_retryDelay := None;
     opt_backoffMultiplier := None; opt_maxReconnectAttempts := None;
     opt_reconnectDelay := None |}.

(** The fields of [this].  [ws] is [null] or a reference to a socket of
    the stream world below. *)
Record client := {
  apiKey : string;
  secretKey : string;
  maxRetries : Z;
  retryDelay : Z;
  backoffMultiplier : Z;
  ws : option nat;
  wsReconnectAttempts : Z;
  maxReconnectAttempts : Z;
  reconnectDelay : Z
}.

Definition constructor (apiKey secretKey : string) (options : Options) : client :=
  {| apiKey := apiKey;
     secretKey := secretKey;
     maxRetries := number_or (opt_maxRetries options) 3;
     retryDelay := number_or (opt_retryDelay options) 1000;
     backoffMultiplier := number_or (opt_backoffMultiplier options) 2;
     ws := None;
     wsReconnectAttempts := 0;
     maxReconnectAttempts := number_or (opt_maxReconnectAttempts options) 5;
     reconnectDelay := number_or (opt_reconnectDelay options) 5000 |}.

Section Rest.
Context {num : Type} `{Runtime num}.

(** An axios request configuration.  Header values are kept as the text
    that goes on the wire. *)
Record RequestConfig := {
  method : string;
  url : string;
  data : value num;
  params : value num;
  requiresAuth : option bool;
  headers : list (string * string)
}.

(** The [options] argument of [makeRequest], spread into the config. *)
Record RequestOptions := {
  o_params : value num;
  o_requiresAuth : option bool
}.

Definition set_header (k v : string) (hs : list (string * string))
  : list (string * string) :=
  List.filter (fun kv => negb (String.eqb (fst kv) k)) hs ++ [(k, v)].

Definition with_headers (config : RequestConfig) (hs : list (string * string))
  : RequestConfig :=
  {| method := method config; url := url config; data := data config;
     params := params config; requiresAuth := requiresAuth config;
     headers := hs |}.

Definition with_method (config : RequestConfig) (m : string) : RequestConfig :=
  {| method := m; url := url config; data := data config;
     params := params config; requiresAuth := requiresAuth config;
     headers := headers config |}.

(** What the exchange does with a request. *)
Inductive HttpOutcome :=
| Responded (status : Z) (body : value num)
| NoResponse
| NotSent (message : string).

(** The environment of a REST call: the exchange's answer to the [i]-th
    invocation of the HTTP client, and the reading of [Date.now()] taken
    for it. *)
Record Exchange := {
  respond : nat -> RequestConfig -> HttpOutcome;
  Date_now : nat -> Z
}.

(** What a call does to the outside, oldest first. *)
Inductive Effect :=
| Requested (config : RequestConfig)
| Slept (ms : Z).

Definition World := list Effect.

Definition is_request (e : Effect) : bool :=
  match e with Requested _ => true | Slept _ => false end.

Definition attempts (w : World) : nat := length (List.filter is_request w).

Definition delays (w : World) : list Z :=
  omap (fun e => match e with Slept ms => Some ms | Requested _ => None end) w.

Definition generateSignature (c : client) (method url : string)
    (data : value num) (timestamp : Z) : string :=
  let message :=
    toUpperCase method +:+ url
      +:+ (if truthy data then JSON_stringify data else "")
      +:+ Z_to_string timestamp in
  hmac_sha256_hex (secretKey c) message.

(** The request interceptor of [setupInterceptors]. *)
Definition request_interceptor (c : client) (now : Z) (config : RequestConfig)
  : RequestConfig :=
  match requiresAuth config with
  | Some false => config
  | _ =>
      let timestamp := now in
      let signature :=
        generateSignature c (method config) (url config) (data config) timestamp in
      with_headers config
        (set_header "PIONEX-TIMESTAMP" (Z_to_string timestamp)
           (set_header "PIONEX-SIGNATURE" signature
              (set_header "PIONEX-KEY" (apiKey c) (headers config))))
  end.

Definition handleHttpError (error : AxiosErr num) : result num (exn num) :=
  match ax_response error with
  | Some (status, data) =>
      match get data "message" with
      | inr e => inr e
      | inl m =>
          let detail :=
            if truthy m then inl m
            else match get data "error" with
                 | inr e => inr e
                 | inl e => inl (or_else e (VStr "Unknown error"))
                 end in
          match detail with
          | inr e => inr e
          | inl d =>
              match ToString d with
              | inr e => inr e
              | inl text =>
                  inl (Error ("Pionex API Error (" +:+ Z_to_string status
                                +:+ "): " +:+ text))
              end
          end
      end
  | None =>
      if ax_request error
      then inl (Error "Pionex API Error: No response received from server")
      else inl (Error ("Pionex API Error: " +:+ ax_message error))
  end.

(** The response interceptor's rejection handler: the promise is rejected
    with the custom error, or with whatever [handleHttpError] throws. *)
Definition response_rejected (error : AxiosErr num) : exn num :=
  match handleHttpError error with
  | inl customError => customError
  | inr thrown => thrown
  end.

Definition default_headers : list (string * string) :=
  [("Content-Type", "application/json"); ("User-Agent", "TradingSystem/1.0.0")]%string.

(** axios' adapter with the default [validateStatus]: a status outside
    200..299 rejects with an error that carries the response. *)
Definition settle (o : HttpOutcome) : (Z * value num) + AxiosErr num :=
  match o with
  | Responded status body =>
      if (200 <=? status) && (status <? 300) then inl (status, body)
      else inr {| ax_message := "Request failed with status code " +:+ Z_to_string status;
                  ax_request := true;
                  ax_response := Some (status, body) |}
  | NoResponse =>
      inr {| ax_message := "Network Error"; ax_request := true; ax_response := None |}
  | NotSent message =>
      inr {| ax_message := message; ax_request := false; ax_response := None |}
  end.

(** [this.httpClient(requestConfig)]: axios lower-cases the method and
    merges the instance headers, runs the request interceptor, performs the
    request and runs the response interceptor. *)
Definition httpClient (c : client) (ex : Exchange) (requestConfig : RequestConfig)
    (w : World) : World * result num (Z * value num) :=
  let i := attempts w in
  let merged :=
    with_headers (with_method requestConfig (toLowerCase (method requestConfig)))
      (default_headers ++ headers requestConfig) in
  let config := request_interceptor c (Date_now ex i) merged in
  let w1 := w ++ [Requested config] in
  match settle (respond ex i config) with
  | inl response => (w1, inl response)
  | inr error => (w1, inr (response_rejected error))
  end.

(** [error.response] of whatever was thrown: only axios' own errors have
    one. *)
Definition response_of (error : exn num) : option (Z * value num) :=
  match error with
  | AxiosError e => ax_response e
  | _ => None
  end.

Definition isRetryableError (error : exn num) : bool :=
  match response_of error with
  | None => true
  | Some (status, _) => (status >=? 500) || (status =? 429)
  end.

Definition sleep (ms : Z) (w : World) : World := w ++ [Slept ms].

Equations? executeWithRetry (c : client)
    (requestFn : World -> World * result num (Z * value num))
    (attempt : Z) (w : World) : World * result num (value num)
    by wf (Z.to_nat (maxRetries c - attempt)) lt :=
  executeWithRetry c requestFn attempt w with requestFn w => {
    | (w1, inl response) := (w1, inl (snd response));
    | (w1, inr error) with Z_ge_lt_dec attempt (maxRetries c) => {
        | left _ := (w1, inr error);
        | right _ with isRetryableError error => {
            | true :=
                let delay := retryDelay c * backoffMultiplier c ^ (attempt - 1) in
                executeWithRetry c requestFn (attempt + 1) (sleep delay w1);
            | false := (w1, inr error) } } }.
Proof. lia. Qed.

Definition makeRequest (c : client) (ex : Exchange) (method endpoint : string)
    (data : value num) (options : RequestOptions) (w : World)
  : World * result num (value num) :=
  let requestConfig :=
    {| method := method; url := endpoint; data := data;
       params := o_params options; requiresAuth := o_requiresAuth options;
       headers := [] |} in
  executeWithRetry c (httpClient c ex requestConfig) 1 w.

End Rest.

(** *** The exchange stream *)

Section Stream.
Context {num : Type} `{Runtime num}.

(** An outbound frame, the object handed to [JSON.stringify]. *)
Record Frame := {
  f_method : string;
  f_params : list string;
  f_id : Z
}.

(** The argument of [unsubscribe]: one stream id or an array of them. *)
Inductive Streams :=
| One (stream : string)
| Many (streams : list string).

Record Socket := {
  readyState : WS.ReadyState;
  sent : list Frame
}.

(** What the client publishes through [this.emit]. *)
Inductive Emitted :=
| wsConnected
| wsDisconnected (code : Z) (reason : string)
| wsError (error : string)
| wsReconnectFailed
| ticker (symbol data : value num)
| kline (symbol data : value num)
| orderUpdate (data : value num)
| balanceUpdate (data : value num)
| message (m : value num).

(** The client together with what its stream methods act on: the sockets
    it has created (a reference is an index into [sockets]), the
    [setTimeout] calls made so far, each with its delay and whether it has
    fired, and the events emitted so far. *)
Record Stream := {
  this : client;
  sockets : list Socket;
  timers : list (Z * bool);
  emitted : list Emitted
}.

Definition set_ws (c : client) (r : option nat) : client :=
  {| apiKey := apiKey c; secretKey := secretKey c; maxRetries := maxRetries c;
     retryDelay := retryDelay c; backoffMultiplier := backoffMultiplier c;
     ws := r;
     wsReconnectAttempts := wsReconnectAttempts c;
     maxReconnectAttempts := maxReconnectAttempts c;
     reconnectDelay := reconnectDelay c |}.

Definition set_wsReconnectAttempts (c : client) (n : Z) : client :=
  {| apiKey := apiKey c; secretKey := secretKey c; maxRetries := maxRetries c;
     retryDelay := retryDelay c; backoffMultiplier := backoffMultiplier c;
     ws := ws c;
     wsReconnectAttempts := n;
     maxReconnectAttempts := maxReconnectAttempts c;
     reconnectDelay := reconnectDelay c |}.

Definition with_this (st : Stream) (c : client) : Stream :=
  {| this := c; sockets := sockets st; timers := timers st; emitted := emitted st |}.

Definition with_sockets (st : Stream) (l : list Socket) : Stream :=
  {| this := this st; sockets := l; timers := timers st; emitted := emitted st |}.

Definition with_timers (st : Stream) (l : list (Z * bool)) : Stream :=
  {| this := this st; sockets := sockets st; timers := l; emitted := emitted st |}.

Definition emit (e : Emitted) (st : Stream) : Stream :=
  {| this := this st; sockets := sockets st; timers := timers st;
     emitted := emitted st ++ [e] |}.

Definition set_readyState (r : WS.ReadyState) (s : Socket) : Socket :=
  {| readyState := r; sent := sent s |}.

(** [socket.send(JSON.stringify(frame))] *)
Definition send (f : Frame) (s : Socket) : Socket :=
  {| readyState := readyState s; sent := sent s ++ [f] |}.

(** [this.ws && this.ws.readyState === WebSocket.OPEN] *)
Definition connected (st : Stream) : bool :=
  match ws (this st) with
  | None => false
  | Some h =>
      match sockets st !! h with
      | Some s => WS.is_open (readyState s)
      | None => false
      end
  end.

Definition connectWebSocket (st : Stream) : Stream :=
  if connected st then st
  else
    let h := length (sockets st) in
    {| this := set_ws (this st) (Some h);
       sockets := sockets st ++ [{| readyState := WS.CONNECTING; sent := [] |}];
       timers := timers st;
       emitted := emitted st |}.

Definition handleWebSocketMessage (m : value num) (st : Stream)
  : Stream * result num unit :=
  match get m "event", get m "data", get m "symbol" with
  | inl event, inl data, inl symbol =>
      if is_string event "ticker" then (emit (ticker symbol data) st, inl tt)
      else if is_string event "kline" then (emit (kline symbol data) st, inl tt)
      else if is_string event "orderUpdate" then (emit (orderUpdate data) st, inl tt)
      else if is_string event "balanceUpdate" then (emit (balanceUpdate data) st, inl tt)
      else (emit (message m) st, inl tt)
  | inr e, _, _ | _, inr e, _ | _, _, inr e => (st, inr e)
  end.

Definition handleWebSocketReconnect (st : Stream) : Stream :=
  let c := this st in
  if wsReconnectAttempts c >=? maxReconnectAttempts c then
    emit wsReconnectFailed st
  else
    let c1 := set_wsReconnectAttempts c (wsReconnectAttempts c + 1) in
    let delay := reconnectDelay c1 * wsReconnectAttempts c1 in
    with_timers (with_this st c1) (timers st ++ [(delay, false)]).

(** The handlers [connectWebSocket] installs on the socket it creates.  The
    library has moved the socket to its new state before it calls them. *)
Definition on_open (h : nat) (st : Stream) : Stream :=
  let st1 := with_sockets st (alter (set_readyState WS.OPEN) h (sockets st)) in
  emit wsConnected (with_this st1 (set_wsReconnectAttempts (this st1) 0)).

Definition on_message (payload : result num (value num)) (st : Stream) : Stream :=
  match payload with
  | inr _ => st
  | inl m => fst (handleWebSocketMessage m st)
  end.

Definition on_error (error : string) (st : Stream) : Stream :=
  emit (wsError error) st.

Definition on_close (h : nat) (code : Z) (reason : string) (st : Stream) : Stream :=
  let st1 := with_sockets st (alter (set_readyState WS.CLOSED) h (sockets st)) in
  handleWebSocketReconnect (emit (wsDisconnected code reason) st1).

(** The callback given to [setTimeout] by [handleWebSocketReconnect]. *)
Definition on_timer (i : nat) (st : Stream) : Stream :=
  match timers st !! i with
  | Some (delay, false) =>
      connectWebSocket (with_timers st (<[i := (delay, true)]> (timers st)))
  | _ => st
  end.

Definition not_connected : exn num := Error "WebSocket not connected".

Definition send_frame (f : Frame) (st : Stream) : Stream :=
  match ws (this st) with
  | Some h => with_sockets st (alter (send f) h (sockets st))
  | None => st
  end.

Definition subscribeToTicker (symbol : string) (now : Z) (st : Stream)
  : Stream * result num unit :=
  if negb (connected st) then (st, inr not_connected)
  else
    let frame :=
      {| f_method := "SUBSCRIBE";
         f_params := [toLowerCase symbol +:+ "@ticker"];
         f_id := now |} in
    (send_frame frame st, inl tt).

Definition subscribeToKlines (symbol interval : string) (now : Z) (st : Stream)
  : Stream * result num unit :=
  if negb (connected st) then (st, inr not_connected)
  else
    let frame :=
      {| f_method := "SUBSCRIBE";
         f_params := [toLowerCase symbol +:+ "@kline_" +:+ interval];
         f_id := now |} in
    (send_frame frame st, inl tt).

Definition unsubscribe (streams : Streams) (now : Z) (st : Stream)
  : Stream * result num unit :=
  if negb (connected st) then (st, inr not_connected)
  else
    let frame :=
      {| f_method := "UNSUBSCRIBE";
         f_params := match streams with Many l => l | One s => [s] end;
         f_id := now |} in
    (send_frame frame st, inl tt).

(** [socket.close()] starts the closing handshake unless the socket is
    already closed. *)
Definition close_socket (s : Socket) : Socket :=
  match readyState s with
  | WS.CLOSED => s
  | _ => set_readyState WS.CLOSING s
  end.

Definition disconnectWebSocket (st : Stream) : Stream :=
  match ws (this st) with
  | Some h =>
      with_this (with_sockets st (alter close_socket h (sockets st)))
                (set_ws (this st) None)
  | None => st
  end.

(** Everything that can happen to the stream side of a client: the socket
    events, an expired reconnect timer, and calls of its public methods. *)
Inductive Action :=
| Open (h : nat)
| Message (h : nat) (payload : result num (value num))
| Failure (h : nat) (error : string)
| Close (h : nat) (code : Z) (reason : string)
| Timer (i : nat)
| CallConnect
| CallSubscribeToTicker (symbol : string) (now : Z)
| CallSubscribeToKlines (symbol interval : string) (now : Z)
| CallUnsubscribe (streams : Streams) (now : Z)
| CallDisconnect.

Definition perform (a : Action) (st : Stream) : Stream * result num unit :=
  match a with
  | Open h => (on_open h st, inl tt)
  | Message _ payload => (on_message payload st, inl tt)
  | Failure _ error => (on_error error st, inl tt)
  | Close h code reason => (on_close h code reason st, inl tt)
  | Timer i => (on_timer i st, inl tt)
  | CallConnect => (connectWebSocket st, inl tt)
  | CallSubscribeToTicker symbol now => subscribeToTicker symbol now st
  | CallSubscribeToKlines symbol interval now => subscribeToKlines symbol interval now st
  | CallUnsubscribe streams now => unsubscribe streams now st
  | CallDisconnect => (disconnectWebSocket st, inl tt)
  end.

Definition run (acts : list Action) (st : Stream) : Stream :=
  fold_left (fun s a => fst (perform a s)) acts st.

Definition is_close (a : Action) : bool :=
  match a with Close _ _ _ => true | _ => false end.

Definition is_timer (a : Action) : bool :=
  match a with Timer _ => true | _ => false end.

(** The delays of all reconnects scheduled so far, oldest first. *)
Definition scheduled (st : Stream) : list Z := map fst (timers st).

(** A client that has just been constructed. *)
Definition initial (c : client) : Stream :=
  {| this := c; sockets := []; timers := []; emitted := [] |}.

End Stream.

(** *** The REST methods and the argument checks *)

Section Api.
Context {num : Type} `{Runtime num}.

(** The number literals of the source, as runtime numbers. *)
Variable literal : Z -> num.

Definition public (params : value num) : @RequestOptions num :=
  {| o_params := params; o_requiresAuth := Some false |}.

Definition private (params : value num) : @RequestOptions num :=
  {| o_params := params; o_requiresAuth := None |}.

Definition getServerTime (c : client) (ex : Exchange) :=
  makeRequest c ex "GET" "/v1/common/timestamp" VNull (public VUndefined).

Definition getExchangeInfo (c : client) (ex : Exchange) :=
  makeRequest c ex "GET" "/v1/common/symbols" VNull (public VUndefined).

Definition getTicker (c : client) (ex : Exchange) (symbol : value num) :=
  makeRequest c ex "GET" "/v1/market/ticker" VNull
    (public (VObj [("symbol", symbol)]%string)).

Definition getKlines (c : client) (ex : Exchange) (symbol interval limit : value num) :=
  let limit := default_arg (VNum (literal 500)) limit in
  makeRequest c ex "GET" "/v1/market/klines" VNull
    (public (VObj [("symbol", symbol); ("interval", interval); ("limit", limit)]%string)).

Definition getAccountInfo (c : client) (ex : Exchange) :=
  makeRequest c ex "GET" "/v1/account/balances" VNull (private VUndefined).







(** [array.includes(x)] on an array of strings. *)
Definition includes (l : list string) (x : string) : bool := existsb (String.eqb x) l.

(** [array.join(', ')]. *)
Fixpoint join_comma (l : list string) : string :=
  match l with
  | [] => ""
  | [x] => x
  | x :: rest => x +:+ ", " +:+ join_comma rest
  end.

Definition validateSymbol (symbol : value num) : result num string :=
  match symbol with
  | VStr s =>
      if truthy symbol then inl (toUpperCase s)
      else inr (Error "Invalid symbol: must be a non-empty string")
  | _ => inr (Error "Invalid symbol: must be a non-empty string")
  end.

(** [x.toLowerCase()] exists on strings only; on anything else the call
    throws. *)
Definition lower_of (x : value num) : result num string :=
  match x with
  | VStr s => inl (toLowerCase s)
  | _ => inr TypeError
  end.

Definition validSides : list string := ["buy"; "sell"]%string.

Definition validateSide (side : value num) : result num string :=
  match lower_of side with
  | inr e => inr e
  | inl lower =>
      if negb (includes validSides lower)
      then inr (Error ("Invalid side: must be one of " +:+ join_comma validSides))
      else inl lower
  end.

Definition validTypes : list string := ["market"; "limit"; "stop"; "stop_limit"]%string.

Definition validateOrderType (type : value num) : result num string :=
  match lower_of type with
  | inr e => inr e
  | inl lower =>
      if negb (includes validTypes lower)
      then inr (Error ("Invalid order type: must be one of " +:+ join_comma validTypes))
      else inl lower
  end.

End Api.

End PionexClient.

(** ** TradingServer: the client sessions and the broadcast hub *)

Module TradingServer.

Section Hub.
Context {num : Type} `{Runtime num}.

(** A message to a dashboard client, the object handed to
    [JSON.stringify] before [ws.send]. *)
Inductive ServerMessage :=
| connection (clientId : string) (timestamp : string)
| subscribed (channel symbol : value num) (subscription : string)
| unsubscribed (channel symbol : value num) (subscription : string)
| pong (timestamp : string)
| error_message (text : string)
| data_message (channel symbol data : value num) (timestamp : string).

(** A client socket with the fields the server hangs on it.
    [subscriptions] is [undefined] until the first subscription; afterwards
    it is a [Set], kept as the list of its keys in insertion order.  [sent]
    records the calls of [ws.send], oldest first. *)
Record WebSocket := {
  clientId : string;
  readyState : WS.ReadyState;
  subscriptions : option (list string);
  sent : list ServerMessage
}.

(** The server: the client sockets created so far (a reference is an
    index into [sockets]) and [wsClients], the [Set] of registered ones in
    insertion order. *)
Record server := {
  sockets : list WebSocket;
  wsClients : list nat
}.

(** [Set.prototype.add], [delete] and [has] on the list of elements. *)
Definition set_add {A} (eqb : A -> A -> bool) (x : A) (s : list A) : list A :=
  if existsb (eqb x) s then s else s ++ [x].

Definition set_delete {A} (eqb : A -> A -> bool) (x : A) (s : list A) : list A :=
  List.filter (fun y => negb (eqb x y)) s.

Definition set_has {A} (eqb : A -> A -> bool) (x : A) (s : list A) : bool :=
  existsb (eqb x) s.

(** Code that mutates one socket and may throw. *)
Definition M (A : Type) : Type := WebSocket -> WebSocket * result num A.

Definition ret {A} (a : A) : M A := fun ws => (ws, inl a).

Definition throw {A} (e : exn num) : M A := fun ws => (ws, inr e).

Definition bind {A B} (m : M A) (k : A -> M B) : M B :=
  fun ws =>
    match m ws with
    | (ws1, inl a) => k a ws1
    | (ws1, inr e) => (ws1, inr e)
    end.

Definition lift {A} (r : result num A) : M A := fun ws => (ws, r).

(** [try { body } catch (error) { handler(error) }] *)
Definition try_catch {A} (body : M A) (handler : exn num -> M A) : M A :=
  fun ws =>
    match body ws with
    | (ws1, inl a) => (ws1, inl a)
    | (ws1, inr e) => handler e ws1
    end.

Notation "'let*' x := m 'in' k" := (bind m (fun x => k))
  (at level 10, x name, m at level 100, k at level 200).
Notation "m >> k" := (bind m (fun _ => k))
  (at level 100, k at level 200, right associativity).

Definition ws_send (m : ServerMessage) : M unit :=
  fun ws =>
    ({| clientId := clientId ws; readyState := readyState ws;
        subscriptions := subscriptions ws; sent := sent ws ++ [m] |}, inl tt).

Definition set_subscriptions (s : option (list string)) : M unit :=
  fun ws =>
    ({| clientId := clientId ws; readyState := readyState ws;
        subscriptions := s; sent := sent ws |}, inl tt).

Definition get_subscriptions : M (option (list string)) :=
  fun ws => (ws, inl (subscriptions ws)).

(** The template literal [`${channel}:${symbol}`]. *)
Definition subscription_key (channel symbol : value num) : result num string :=
  match ToString channel with
  | inr e => inr e
  | inl c =>
      match ToString symbol with
      | inr e => inr e
      | inl s => inl (c +:+ ":" +:+ s)
      end
  end.

Definition handleSubscription (data : value num) : M unit :=
  let* channel := lift (get data "channel") in
  let* symbol := lift (get data "symbol") in
  let* subs := get_subscriptions in
  match subs with
  | None => set_subscriptions (Some [])
  | Some _ => ret tt
  end >>
  let* subscription := lift (subscription_key channel symbol) in
  let* subs := get_subscriptions in
  set_subscriptions (set_add String.eqb subscription <$> subs) >>
  ws_send (subscribed channel symbol subscription).

Definition handleUnsubscription (data : value num) : M unit :=
  let* channel := lift (get data "channel") in
  let* symbol := lift (get data "symbol") in
  let* subs := get_subscriptions in
  match subs with
  | Some keys =>
      let* subscription := lift (subscription_key channel symbol) in
      set_subscriptions (Some (set_delete String.eqb subscription keys)) >>
      ws_send (unsubscribed channel symbol subscription)
  | None => ret tt
  end.

Definition handleWebSocketMessage (now : string) (m : value num) : M unit :=
  let* type := lift (get m "type") in
  let* data := lift (get m "data") in
  if is_string type "subscribe" then handleSubscription data
  else if is_string type "unsubscribe" then handleUnsubscription data
  else if is_string type "ping" then ws_send (pong now)
  else
    let* text := lift (ToString type) in
    ws_send (error_message ("Unknown message type: " +:+ text)).

(** The ['message'] handler of [setupWebSocket]; [payload] is what
    [JSON.parse(message.toString())] makes of the frame. *)
Definition on_message (now : string) (payload : result num (value num)) : M unit :=
  try_catch
    (let* data := lift payload in handleWebSocketMessage now data)
    (fun _ => ws_send (error_message "Invalid JSON message")).

(** Running a handler on the socket [h] refers to. *)
Definition at_socket {A} (h : nat) (m : M A) (srv : server)
  : server * option (result num A) :=
  match sockets srv !! h with
  | None => (srv, None)
  | Some ws =>
      let '(ws1, r) := m ws in
      ({| sockets := <[h := ws1]> (sockets srv); wsClients := wsClients srv |}, Some r)
  end.

(** The ['connection'] handler. *)
Definition on_connection (id now : string) (srv : server) : server :=
  let h := length (sockets srv) in
  let ws :=
    {| clientId := id; readyState := WS.OPEN; subscriptions := None;
       sent := [connection id now] |} in
  {| sockets := sockets srv ++ [ws];
     wsClients := set_add Nat.eqb h (wsClients srv) |}.

(** The ['close'] and ['error'] handlers: both unregister the socket. *)
Definition on_close (h : nat) (srv : server) : server :=
  {| sockets := sockets srv; wsClients := set_delete Nat.eqb h (wsClients srv) |}.

Definition on_error (h : nat) (srv : server) : server :=
  {| sockets := sockets srv; wsClients := set_delete Nat.eqb h (wsClients srv) |}.

(** The test in the body of [broadcastToSubscribers]. *)
Definition wants (subscription : string) (ws : WebSocket) : bool :=
  WS.is_open (readyState ws)
  && match subscriptions ws with
     | Some keys => set_has String.eqb subscription keys
     | None => false
     end.

Definition deliver (subscription : string) (m : ServerMessage) (ws : WebSocket)
  : WebSocket :=
  if wants subscription ws then fst (ws_send m ws) else ws.

Definition broadcastToSubscribers (channel symbol data : value num) (now : string)
    (srv : server) : server * result num unit :=
  match subscription_key channel symbol with
  | inr e => (srv, inr e)
  | inl subscription =>
      let m := data_message channel symbol data now in
      ({| sockets :=
            fold_left (fun l h => alter (deliver subscription m) h l)
                      (wsClients srv) (sockets srv);
          wsClients := wsClients srv |}, inl tt)
  end.

(** A socket as [on_connection] leaves it. *)
Definition fresh (id now : string) : WebSocket :=
  {| clientId := id; readyState := WS.OPEN; subscriptions := None;
     sent := [connection id now] |}.

(** The payload of a well-formed [subscribe] or [unsubscribe] message. *)
Definition pair_data (channel symbol : string) : value num :=
  VObj [("channel", VStr channel); ("symbol", VStr symbol)]%string.

End Hub.

(** *** The life of the server *)

Section Lifecycle.
Context {num : Type} `{Runtime num}.

(** What happens to a running server: a client connects, a frame arrives
    on a socket, a socket closes or fails, an event is broadcast.  The
    library has moved a closing socket to its closed state before the
    ['close'] handler runs. *)
Inductive Event :=
| Connected (id now : string)
| Received (h : nat) (now : string) (payload : result num (value num))
| Closed (h : nat)
| Failed (h : nat)
| Broadcast (channel symbol data : value num) (now : string).

Definition set_closed (ws : @WebSocket num) : WebSocket :=
  {| clientId := clientId ws; readyState := WS.CLOSED;
     subscriptions := subscriptions ws; sent := sent ws |}.

Definition step (e : Event) (srv : @server num) : server :=
  match e with
  | Connected id now => on_connection id now srv
  | Received h now payload => fst (at_socket h (on_message now payload) srv)
  | Closed h =>
      on_close h {| sockets := alter set_closed h (sockets srv);
                    wsClients := wsClients srv |}
  | Failed h => on_error h srv
  | Broadcast channel symbol data now =>
      fst (broadcastToSubscribers channel symbol data now srv)
  end.

Definition run (events : list Event) (srv : @server num) : server :=
  fold_left (fun s e => step e s) events srv.

(** The server as its constructor leaves it. *)
Definition empty : @server num := {| sockets := []; wsClients := [] |}.

(** The listeners [initializePionexClient] installs on the exchange
    client: tickers and klines are broadcast under their symbol, order
    updates under [orders:all]; nothing listens to the other events. *)
Definition relay (e : @PionexClient.Emitted num) (now : string) (srv : @server num)
  : server * result num unit :=
  match e with
  | PionexClient.ticker symbol data =>
      broadcastToSubscribers (VStr "ticker") symbol data now srv
  | PionexClient.kline symbol data =>
      broadcastToSubscribers (VStr "kline") symbol data now srv
  | PionexClient.orderUpdate data =>
      broadcastToSubscribers (VStr "orders") (VStr "all") data now srv
  | _ => (srv, inl tt)
  end.

(** A frame from the exchange, through the client's ['message'] handler
    and the listeners.  The handler's [try] swallows whatever a listener
    throws. *)
Definition exchange_frame (payload : result num (value num)) (now : string)
    (st : @PionexClient.Stream num) (srv : @server num)
  : PionexClient.Stream * server :=
  let st1 := PionexClient.on_message payload st in
  let published :=
    drop (length (PionexClient.emitted st)) (PionexClient.emitted st1) in
  (st1, fold_left (fun s e => fst (relay e now s)) published srv).

End Lifecycle.

End TradingServer.

(** ** A concrete runtime, for evaluating the definitions on examples *)

Module Sample.

Definition quote : string := String (ascii_of_nat 34) EmptyString.

Definition quoted (s : string) : string := quote +:+ s +:+ quote.

(** Serialisation of values whose strings need no escaping.  As
    [JSON.stringify] does, a property whose value is [undefined] is left
    out, and an [undefined] array element prints as [null]. *)
Fixpoint stringify (v : value Z) : string :=
  match v with
  | VUndefined => "undefined"
  | VNull => "null"
  | VBool true => "true"
  | VBool false => "false"
  | VNum n => Z_to_string n
  | VStr s => quoted s
  | VArr elems =>
      "[" +:+ (fix items (first : bool) (l : list (value Z)) : string :=
                 match l with
                 | [] => ""
                 | x :: rest =>
                     (if first then "" else ",")
                       +:+ match x with
                           | VUndefined => "null"
                           | _ => stringify x
                           end
                       +:+ items false rest
                 end) true elems +:+ "]"
  | VObj props =>
      "{" +:+ (fix members (first : bool) (l : list (string * value Z)) : string :=
                 match l with
                 | [] => ""
                 | (_, VUndefined) :: rest => members first rest
                 | (k, x) :: rest =>
                     (if first then "" else ",")
                       +:+ quoted k +:+ ":" +:+ stringify x
                       +:+ members false rest
                 end) true props +:+ "}"
  end.

(** The digest is left symbolic: it records the key and the message. *)
#[export] Instance runtime : Runtime Z := {|
  num_to_string := Z_to_string;
  num_truthy := fun n => negb (n =? 0);
  JSON_stringify := stringify;
  hmac_sha256_hex := fun key msg => "hmac-sha256(" +:+ key +:+ "," +:+ msg +:+ ")"
|}.

Definition defaults : PionexClient.client :=
  PionexClient.constructor "key" "secret" PionexClient.no_options.

(** A stream whose socket has opened. *)
Definition open_stream : @PionexClient.Stream Z :=
  PionexClient.on_open 0 (PionexClient.connectWebSocket (PionexClient.initial defaults)).

Definition order : value Z :=
  VObj [("symbol", VStr "BTCUSDT"); ("side", VStr "buy"); ("quantity", VNum 1)]%string.

(** An exchange that answers every request with the given status. *)
Definition always (status : Z) (body : value Z) : @PionexClient.Exchange Z :=
  {| PionexClient.respond := fun _ _ => PionexClient.Responded status body;
     PionexClient.Date_now := fun i => 1700000000000 + Z.of_nat i |}.

End Sample.

(** ** Observations used to state the properties *)

Module Observe.

Section Rest.
Context {num : Type} `{Runtime num}.
Import PionexClient.

(** A world with the request contents erased: [None] for an attempt,
    [Some ms] for a wait of [ms] milliseconds. *)
Definition timeline (w : @World num) : list (option Z) :=
  map (fun e => match e with Requested _ => None | Slept ms => Some ms end) w.

(** The consecutive integers [start], [start + 1], ... *)
Fixpoint Zseq (start : Z) (len : nat) : list Z :=
  match len with
  | O => []
  | S n => start :: Zseq (start + 1) n
  end.

(** The retry policy in the specification's words: before attempt [k]
    (from the second on) wait [baseDelay * multiplier ^ (k - 2)], then
    make the attempt. *)
Fixpoint backoff_timeline (baseDelay multiplier : Z) (k : Z) (remaining : nat)
  : list (option Z) :=
  match remaining with
  | O => []
  | S r =>
      Some (baseDelay * multiplier ^ (k - 2)) :: None
        :: backoff_timeline baseDelay multiplier (k + 1) r
  end.

Definition attempts_in (t : list (option Z)) : nat :=
  length (List.filter (fun o => match o with None => true | Some _ => false end) t).

Definition delays_in (t : list (option Z)) : list Z := omap id t.

(** The error axios raises for a response with a status outside 2xx. *)
Definition status_error (status : Z) (body : value num) : AxiosErr num :=
  {| ax_message := "Request failed with status code " +:+ Z_to_string status;
     ax_request := true;
     ax_response := Some (status, body) |}.

Fixpoint header (k : string) (hs : list (string * string)) : option string :=
  match hs with
  | [] => None
  | (k', v) :: rest => if String.eqb k' k then Some v else header k rest
  end.

(** The signed string: [body] is [None] for a request without a body, and
    then contributes nothing. *)
Definition canonical_string (method path : string) (body : option (value num))
    (timestamp_ms : Z) : string :=
  toUpperCase method +:+ path
    +:+ match body with Some b => JSON_stringify b | None => "" end
    +:+ Z_to_string timestamp_ms.

(** The body part as the client takes it ([data ? JSON.stringify(data) :
    '']): a falsy [data], [null] included, counts as no body. *)
Definition body_of (data : value num) : option (value num) :=
  if truthy data then Some data else None.

(** The signed string with [JSON(body)] taken for every body, [null]
    included. *)
Definition json_body_string (method path : string) (body : value num)
    (timestamp_ms : Z) : string :=
  toUpperCase method +:+ path +:+ JSON_stringify body +:+ Z_to_string timestamp_ms.

End Rest.

Section Stream.
Context {num : Type} `{Runtime num}.
Import PionexClient.

(** The frames sent so far on the socket [this.ws] refers to. *)
Definition outbox (st : @Stream num) : list Frame :=
  match ws (this st) with
  | Some h =>
      match sockets st !! h with
      | Some s => sent s
      | None => []
      end
  | None => []
  end.

(** The stream connection is [Open]: there is a current socket and it is
    in the open state. *)
Definition is_Open (st : @Stream num) : Prop :=
  exists h s, ws (this st) = Some h /\ sockets st !! h = Some s
              /\ readyState s = WS.OPEN.

End Stream.

Section Hub.
Context {num : Type} `{Runtime num}.
Import TradingServer.

(** The session behind socket [h] is to receive a broadcast for [key]: it
    is registered, its socket is open and its key set contains [key]. *)
Definition entitled (srv : @server num) (h : nat) (ws : @WebSocket num)
    (key : string) : Prop :=
  In h (wsClients srv)
  /\ readyState ws = WS.OPEN
  /\ exists keys, subscriptions ws = Some keys /\ In key keys.

(** [ws] after one more [ws.send]. *)
Definition sent_one (m : @ServerMessage num) (ws : @WebSocket num) : WebSocket :=
  {| clientId := clientId ws; readyState := readyState ws;
     subscriptions := subscriptions ws; sent := sent ws ++ [m] |}.

(** The inbound frames that cannot be served: text that is not JSON, a
    message whose [type] is none of the known ones, and a message whose
    handling throws. *)
Inductive unserved (now : string) (ws : @WebSocket num)
  : result num (value num) -> Prop :=
| not_json e : unserved now ws (inr e)
| unknown_type m type :
    get m "type" = inl type ->
    is_string type "subscribe" = false ->
    is_string type "unsubscribe" = false ->
    is_string type "ping" = false ->
    unserved now ws (inl m)
| handling_throws m e :
    snd (handleWebSocketMessage now m ws) = inr e ->
    unserved now ws (inl m).

End Hub.

Section More.
Context {num : Type} `{Runtime num}.

(** The request configurations put on the wire, oldest first. *)
Definition requests (w : @PionexClient.World num) : list PionexClient.RequestConfig :=
  omap (fun e => match e with
                 | PionexClient.Requested config => Some config
                 | PionexClient.Slept _ => None
                 end) w.

(** The configuration invocation number [i] of the HTTP client sends for
    [requestConfig]. *)
Definition sent_config (c : PionexClient.client) (ex : @PionexClient.Exchange num)
    (requestConfig : PionexClient.RequestConfig) (i : nat) : PionexClient.RequestConfig :=
  PionexClient.request_interceptor c (PionexClient.Date_now ex i)
    (PionexClient.with_headers
       (PionexClient.with_method requestConfig
          (toLowerCase (PionexClient.method requestConfig)))
       (PionexClient.default_headers ++ PionexClient.headers requestConfig)).

(** A string of ASCII characters. *)
Definition seven_bit (s : string) : Prop :=
  Forall (fun a => (nat_of_ascii a < 128)%nat) (list_ascii_of_string s).

(** A request that carries no credentials. *)
Definition unsigned (config : @PionexClient.RequestConfig num) : Prop :=
  header "PIONEX-KEY" (PionexClient.headers config) = None
  /\ header "PIONEX-SIGNATURE" (PionexClient.headers config) = None
  /\ header "PIONEX-TIMESTAMP" (PionexClient.headers config) = None.

(** One round of a flapping connection: the socket drops, the reconnect
    timer expires, the new socket opens. *)
Definition flap (r : nat * nat * nat) : list (@PionexClient.Action num) :=
  [PionexClient.Close (fst (fst r)) 1006 ""; PionexClient.Timer (snd (fst r));
   PionexClient.Open (snd r)].

(** The registry is sound: no socket is registered twice, every
    registered reference points to a socket, and no key set holds a key
    twice. *)
Definition sound (srv : @TradingServer.server num) : Prop :=
  List.NoDup (TradingServer.wsClients srv)
  /\ (forall h, In h (TradingServer.wsClients srv)
                -> (h < length (TradingServer.sockets srv))%nat)
  /\ (forall h ws keys,
        TradingServer.sockets srv !! h = Some ws ->
        TradingServer.subscriptions ws = Some keys -> List.NoDup keys).

(** The one frame the hub does not answer: a well-formed [unsubscribe]
    for a session that has no key set. *)
Definition unanswered (payload : result num (value num))
    (ws : @TradingServer.WebSocket num) : Prop :=
  exists m type data channel,
    payload = inl m
    /\ get m "type" = inl type
    /\ is_string type "unsubscribe" = true
    /\ get m "data" = inl data
    /\ get data "channel" = inl channel
    /\ TradingServer.subscriptions ws = None.

End More.

End Observe.

(** ** Concrete inputs *)

Module Examples.

Import Sample Observe.

Local Open Scope string_scope.

Definition unavailable : value Z := VObj [("message", VStr "Service Unavailable")].
Definition invalid : value Z := VObj [("message", VStr "Invalid symbol")].

Definition plain : @PionexClient.RequestOptions Z :=
  {| PionexClient.o_params := VUndefined; PionexClient.o_requiresAuth := None |}.

Definition order_config : @PionexClient.RequestConfig Z :=
  {| PionexClient.method := "POST"; PionexClient.url := "/v1/trade/orders";
     PionexClient.data := order; PionexClient.params := VUndefined;
     PionexClient.requiresAuth := None; PionexClient.headers := [] |}.

(** Five drops of the stream, each followed by the reconnect it
    scheduled. *)
Definition five_drops : list (@PionexClient.Action Z) :=
  [PionexClient.Close 0 1006 ""; PionexClient.Timer 0;
   PionexClient.Close 1 1006 ""; PionexClient.Timer 1;
   PionexClient.Close 2 1006 ""; PionexClient.Timer 2;
   PionexClient.Close 3 1006 ""; PionexClient.Timer 3;
   PionexClient.Close 4 1006 ""; PionexClient.Timer 4].

Definition started : @PionexClient.Stream Z :=
  PionexClient.connectWebSocket (PionexClient.initial defaults).

(** Session A follows [ticker:BTCUSDT], session B [ticker:ETHUSDT], and
    session C follows [ticker:BTCUSDT] on a socket that has closed without
    having been unregistered yet. *)
Definition session (id : string) (state : WS.ReadyState) (keys : list string)
  : @TradingServer.WebSocket Z :=
  {| TradingServer.clientId := id; TradingServer.readyState := state;
     TradingServer.subscriptions := Some keys; TradingServer.sent := [] |}.

Definition hub : @TradingServer.server Z :=
  {| TradingServer.sockets :=
       [session "A" WS.OPEN ["ticker:BTCUSDT"];
        session "B" WS.OPEN ["ticker:ETHUSDT"];
        session "C" WS.CLOSED ["ticker:BTCUSDT"]];
     TradingServer.wsClients := [0; 1; 2]%nat |}.

Definition price : value Z := VObj [("last", VNum 42000)].

Definition newcomer : @TradingServer.WebSocket Z := TradingServer.fresh "c1" "t0".

Definition btc : value Z := TradingServer.pair_data "ticker" "BTCUSDT".

(** An exchange that does not answer the first [failures] requests and
    answers the later ones with 200. *)
Definition flaky (failures : nat) (body : value Z) : @PionexClient.Exchange Z :=
  {| PionexClient.respond :=
       fun i _ => if (i <? failures)%nat then PionexClient.NoResponse
                  else PionexClient.Responded 200 body;
     PionexClient.Date_now := fun i => 1700000000000 + Z.of_nat i |}.

Definition balances : value Z := VObj [("balances", VArr [])].

(** The world before the call. *)
Definition untouched : @PionexClient.World Z := [].

Definition no_retries : PionexClient.Options :=
  {| PionexClient.opt_maxRetries := Some 0;
     PionexClient.opt_retryDelay := None;
     PionexClient.opt_backoffMultiplier := None;
     PionexClient.opt_maxReconnectAttempts := None;
     PionexClient.opt_reconnectDelay := None |}.

Definition ticker_frame : value Z :=
  VObj [("event", VStr "ticker"); ("symbol", VStr "BTCUSDT"); ("data", price)].

End Examples.

(** * Properties *)

Section RestProperties.
Context {num : Type} `{Runtime num}.
Import PionexClient Observe.

Lemma executeWithRetry_unfold c requestFn attempt (w : @World num) :
  executeWithRetry c requestFn attempt w =
  match requestFn w with
  | (w1, inl response) => (w1, inl (snd response))
  | (w1, inr error) =>
      if attempt >=? maxRetries c then (w1, inr error)
      else if isRetryableError error
           then executeWithRetry c requestFn (attempt + 1)
                  (sleep (retryDelay c * backoffMultiplier c ^ (attempt - 1)) w1)
           else (w1, inr error)
  end.
Proof.
  simp executeWithRetry.
  destruct (requestFn w) as [w1 [response|error]]; simpl; [reflexivity|].
  destruct (Z_ge_lt_dec attempt (maxRetries c)) as [Hge|Hlt]; simpl.
  - destruct (Z.geb_spec attempt (maxRetries c)); [reflexivity|lia].
  - destruct (Z.geb_spec attempt (maxRetries c)); [lia|].
    destruct (isRetryableError error); reflexivity.
Qed.


(** A call whose error is not retryable is not repeated: the first
    failure is thrown as it is. *)
Lemma executeWithRetry_terminal_once c requestFn attempt (w w1 : @World num) error :
  requestFn w = (w1, inr error) ->
  isRetryableError error = false ->
  executeWithRetry c requestFn attempt w = (w1, inr error).
Proof.
  intros Hreq Hterm. rewrite executeWithRetry_unfold, Hreq, Hterm.
  destruct (attempt >=? maxRetries c); reflexivity.
Qed.

(** With a request that fails the same retryable way every time, the
    attempts from number [attempt] on follow the backoff schedule. *)
Lemma executeWithRetry_schedule c requestFn (e0 : exn num) :
  (forall w, exists config, requestFn w = (w ++ [Requested config], inr e0)) ->
  isRetryableError e0 = true ->
  forall (n : nat) attempt (w : @World num),
    maxRetries c - attempt = Z.of_nat n ->
    exists tail,
      executeWithRetry c requestFn attempt w = (w ++ tail, inr e0) /\
      timeline tail =
        None :: backoff_timeline (retryDelay c) (backoffMultiplier c) (attempt + 1) n.
Proof.
  intros Hfail Hretry n.
  induction n as [|n IH]; intros attempt w Hn;
    destruct (Hfail w) as [config Hreq];
    rewrite executeWithRetry_unfold, Hreq.
  - destruct (Z.geb_spec attempt (maxRetries c)); [|lia].
    exists [Requested config]. split; reflexivity.
  - destruct (Z.geb_spec attempt (maxRetries c)); [lia|].
    rewrite Hretry.
    destruct (IH (attempt + 1)
                (sleep (retryDelay c * backoffMultiplier c ^ (attempt - 1))
                       (w ++ [Requested config]))) as [tail [Hrun Htl]]; [lia|].
    exists (Requested config
              :: Slept (retryDelay c * backoffMultiplier c ^ (attempt - 1)) :: tail).
    split.
    + rewrite Hrun. unfold sleep. rewrite <- !app_assoc. reflexivity.
    + simpl. rewrite Htl. simpl.
      replace (attempt + 1 - 2) with (attempt - 1) by lia. reflexivity.
Qed.

Lemma attempts_timeline (w : @World num) : attempts w = attempts_in (timeline w).
Proof.
  unfold attempts, attempts_in, timeline.
  induction w as [|[config|ms] w IH]; simpl in *; congruence.
Qed.

Lemma delays_timeline (w : @World num) : delays w = delays_in (timeline w).
Proof.
  unfold delays, delays_in, timeline.
  induction w as [|[config|ms] w IH]; simpl in *;
    [reflexivity | exact IH | f_equal; exact IH].
Qed.

Lemma attempts_in_backoff d m k n : attempts_in (backoff_timeline d m k n) = n.
Proof.
  revert k. induction n as [|n IH]; intros k; [reflexivity|].
  unfold attempts_in in *. simpl. rewrite IH. reflexivity.
Qed.

Lemma delays_in_backoff d m k n :
  delays_in (backoff_timeline d m k n) = map (fun j => d * m ^ (j - 2)) (Zseq k n).
Proof.
  revert k. induction n as [|n IH]; intros k; [reflexivity|].
  unfold delays_in in *. simpl. f_equal. apply IH.
Qed.

(** Whatever [get] or [ToString] throws is a [TypeError]. *)
Lemma get_throws (v : value num) k e : get v k = inr e -> e = TypeError.
Proof. destruct v; simpl; congruence. Qed.

Lemma join_with_throws (f : value num -> result num string) l :
  Forall (fun x => forall e, f x = inr e -> e = TypeError) l ->
  forall e, join_with f l = inr e -> e = TypeError.
Proof.
  induction 1 as [|x rest Hx Hrest IH]; intros e; simpl; [discriminate|].
  destruct (piece f x) as [p|e'] eqn:Ep.
  - destruct rest as [|y rest']; [discriminate|].
    destruct (join_with f (y :: rest')) as [r|e''] eqn:Er; [discriminate|].
    intros [= <-]. apply IH. reflexivity.
  - intros [= <-]. apply Hx. destruct x; simpl in Ep; congruence.
Qed.

Lemma ToString_throws : forall (v : value num) e, ToString v = inr e -> e = TypeError.
Proof.
  fix IH 1. intros [ | |b|n|s|elems|props] e; simpl; try discriminate.
  - destruct b; discriminate.
  - apply join_with_throws.
    induction elems as [|x rest IHrest]; constructor; [apply IH|exact IHrest].
  - destruct (own props "toString"); congruence.
Qed.

(** The response interceptor never passes [error.response] on: what it
    rejects with is a plain [Error], or the [TypeError] raised while
    building its message. *)
Lemma response_rejected_no_response (error : AxiosErr num) :
  response_of (response_rejected error) = None.
Proof.
  unfold response_rejected, handleHttpError.
  destruct (ax_response error) as [[status data]|].
  - destruct (get data "message") as [m|e] eqn:Em.
    + destruct (truthy m).
      * destruct (ToString m) as [t|e] eqn:Et; [reflexivity|].
        apply ToString_throws in Et. subst. reflexivity.
      * destruct (get data "error") as [v|e] eqn:Ee.
        -- destruct (ToString (or_else v (VStr "Unknown error"))) as [t|e] eqn:Et;
             [reflexivity|].
           apply ToString_throws in Et. subst. reflexivity.
        -- apply get_throws in Ee. subst. reflexivity.
    + apply get_throws in Em. subst. reflexivity.
  - destruct (ax_request error); reflexivity.
Qed.

Lemma response_rejected_retryable (error : AxiosErr num) :
  isRetryableError (response_rejected error) = true.
Proof. unfold isRetryableError. rewrite response_rejected_no_response. reflexivity. Qed.

(** A response outside 2xx makes the HTTP client log one request and
    reject with the interceptor's error. *)
Lemma httpClient_rejects c ex config (w : @World num) status body :
  (forall i cfg, respond ex i cfg = Responded status body) ->
  (200 <=? status) && (status <? 300) = false ->
  exists sentConfig,
    httpClient c ex config w =
      (w ++ [Requested sentConfig], inr (response_rejected (status_error status body))).
Proof.
  intros Hex Hbad. unfold httpClient. eexists.
  rewrite Hex. unfold settle. rewrite Hbad. reflexivity.
Qed.

(** Every response outside 2xx, whatever its status, is retried until the
    attempts are used up. *)
Lemma makeRequest_failing_schedule c ex method endpoint data options
    (w : @World num) status body :
  1 <= maxRetries c ->
  (forall i cfg, respond ex i cfg = Responded status body) ->
  (200 <=? status) && (status <? 300) = false ->
  exists tail,
    makeRequest c ex method endpoint data options w =
      (w ++ tail, inr (response_rejected (status_error status body))) /\
    timeline tail =
      None :: backoff_timeline (retryDelay c) (backoffMultiplier c) 2
                (Z.to_nat (maxRetries c - 1)) /\
    Z.of_nat (attempts tail) = maxRetries c /\
    delays tail =
      map (fun k => retryDelay c * backoffMultiplier c ^ (k - 2))
          (Zseq 2 (Z.to_nat (maxRetries c - 1))).
Proof.
  intros Hmax Hex Hbad. unfold makeRequest.
  destruct (executeWithRetry_schedule c
              (httpClient c ex
                 {| method := method; url := endpoint; data := data;
                    params := o_params options;
                    requiresAuth := o_requiresAuth options; headers := [] |})
              (response_rejected (status_error status body)))
    with (n := Z.to_nat (maxRetries c - 1)) (attempt := 1) (w := w)
    as [tail [Hrun Htl]].
  - intros w0. apply httpClient_rejects; assumption.
  - apply response_rejected_retryable.
  - lia.
  - exists tail. split; [exact Hrun|]. split; [exact Htl|]. split.
    + rewrite attempts_timeline, Htl.
      change (attempts_in (None :: ?t)) with (S (attempts_in t)).
      rewrite attempts_in_backoff. lia.
    + rewrite delays_timeline, Htl.
      change (delays_in (None :: ?t)) with (delays_in t).
      apply delays_in_backoff.
Qed.

Lemma upper_lower_ascii a : upper_ascii (lower_ascii a) = upper_ascii a.
Proof. destruct a as [[] [] [] [] [] [] [] []]; reflexivity. Qed.

Lemma toUpperCase_toLowerCase s : toUpperCase (toLowerCase s) = toUpperCase s.
Proof.
  unfold toUpperCase, toLowerCase.
  induction s as [|a s IH]; simpl; [reflexivity|].
  rewrite upper_lower_ascii, IH. reflexivity.
Qed.

Lemma header_set_header_eq k v hs : header k (set_header k v hs) = Some v.
Proof.
  unfold set_header.
  induction hs as [|[k' v'] hs IH]; simpl.
  - rewrite String.eqb_refl. reflexivity.
  - destruct (String.eqb k' k) eqn:E; simpl; [exact IH|].
    rewrite E. exact IH.
Qed.

Lemma header_set_header_ne k k' v hs :
  k <> k' -> header k (set_header k' v hs) = header k hs.
Proof.
  intros Hne. unfold set_header.
  induction hs as [|[k0 v0] hs IH]; simpl.
  - destruct (String.eqb_spec k' k); [congruence|reflexivity].
  - destruct (String.eqb_spec k0 k') as [->|Hk]; simpl.
    + destruct (String.eqb_spec k' k); [congruence|exact IH].
    + destruct (String.eqb k0 k); [reflexivity|exact IH].
Qed.

Lemma generateSignature_canonical c method url data timestamp :
  generateSignature c method url data timestamp =
  hmac_sha256_hex (secretKey c)
    (canonical_string method url (body_of data) timestamp).
Proof.
  unfold generateSignature, canonical_string, body_of.
  destruct (truthy data); reflexivity.
Qed.

(** C1 -- Retry bound.  When the exchange answers every attempt of a REST
    call with HTTP 503, the call makes exactly [maxRetries] attempts, waits
    [retryDelay * backoffMultiplier ^ (k - 2)] before attempt [k] for every
    [k >= 2], and after the last attempt throws the error to the caller.
    A 503 response is classified retryable, and a client constructed
    without options has [maxRetries = 3], [retryDelay = 1000] and
    [backoffMultiplier = 2]. *)
Theorem retry_bound_on_503 c ex method endpoint data options (w : @World num) body :
  1 <= maxRetries c ->
  (forall i cfg, respond ex i cfg = Responded 503 body) ->
  (exists tail,
     makeRequest c ex method endpoint data options w =
       (w ++ tail, inr (response_rejected (status_error 503 body))) /\
     Z.of_nat (attempts tail) = maxRetries c /\
     timeline tail =
       None :: backoff_timeline (retryDelay c) (backoffMultiplier c) 2
                 (Z.to_nat (maxRetries c - 1)) /\
     delays tail =
       map (fun k => retryDelay c * backoffMultiplier c ^ (k - 2))
           (Zseq 2 (Z.to_nat (maxRetries c - 1)))) /\
  isRetryableError (AxiosError (status_error 503 body)) = true /\
  (forall apiKey secretKey,
     let d := constructor apiKey secretKey no_options in
     maxRetries d = 3 /\ retryDelay d = 1000 /\ backoffMultiplier d = 2).
Proof.
  intros Hmax Hex. split; [|split; [reflexivity|intros; repeat split]].
  destruct (makeRequest_failing_schedule c ex method endpoint data options w 503 body
              Hmax Hex eq_refl) as [tail (Hrun & Hn & Htl & Hd)].
  exists tail. repeat split; assumption.
Qed.

(** C5 -- What the code does with a terminal status.  The classifier
    itself treats a 4xx response other than 429 as not retryable, but the
    response interceptor has replaced the error by one without a
    [response] before the retry loop sees it: a call that the exchange
    always answers with such a status is attempted [maxRetries] times,
    with the backoff waits in between, instead of once. *)
Theorem client_error_is_retried c ex method endpoint data options
    (w : @World num) status body :
  1 <= maxRetries c ->
  400 <= status < 500 ->
  status <> 429 ->
  (forall i cfg, respond ex i cfg = Responded status body) ->
  isRetryableError (AxiosError (status_error status body)) = false /\
  isRetryableError (response_rejected (status_error status body)) = true /\
  exists tail,
    makeRequest c ex method endpoint data options w =
      (w ++ tail, inr (response_rejected (status_error status body))) /\
    Z.of_nat (attempts tail) = maxRetries c /\
    delays tail =
      map (fun k => retryDelay c * backoffMultiplier c ^ (k - 2))
          (Zseq 2 (Z.to_nat (maxRetries c - 1))).
Proof.
  intros Hmax Hst Hne Hex. split; [|split].
  - unfold isRetryableError. simpl.
    destruct (Z.geb_spec status 500); [lia|].
    destruct (Z.eqb_spec status 429); [lia|reflexivity].
  - apply response_rejected_retryable.
  - assert (Hbad : (200 <=? status) && (status <? 300) = false).
    { destruct (Z.ltb_spec status 300); [lia|]. apply andb_false_r. }
    destruct (makeRequest_failing_schedule c ex method endpoint data options w
                status body Hmax Hex Hbad) as [tail (Hrun & Hn & Htl & Hd)].
    exists tail. repeat split; assumption.
Qed.

(** C3 -- Signature scheme, as the client implements it.  A request that
    is not marked [requiresAuth: false] goes out with the API key, the
    signature and the timestamp as headers, the signature being the hex
    HMAC-SHA256, under the secret key, of [UPPER(method) || path || B ||
    timestamp], where [B] is [JSON(body)] for a truthy body and the empty
    string for a body that is [null] or otherwise falsy; and the signature
    depends on nothing but the secret key, method, path, body and
    timestamp. *)
Theorem signature_scheme c ex config (w : @World num) :
  requiresAuth config <> Some false ->
  let timestamp := Date_now ex (attempts w) in
  let signature :=
    hmac_sha256_hex (secretKey c)
      (canonical_string (method config) (url config) (body_of (data config))
                        timestamp) in
  (exists sentConfig,
     fst (httpClient c ex config w) = w ++ [Requested sentConfig] /\
     header "PIONEX-KEY" (headers sentConfig) = Some (apiKey c) /\
     header "PIONEX-SIGNATURE" (headers sentConfig) = Some signature /\
     header "PIONEX-TIMESTAMP" (headers sentConfig) = Some (Z_to_string timestamp)) /\
  (forall method path body timestamp_ms,
     generateSignature c method path body timestamp_ms =
     hmac_sha256_hex (secretKey c)
       (canonical_string method path (body_of body) timestamp_ms)) /\
  (forall c' method path body timestamp_ms,
     secretKey c' = secretKey c ->
     generateSignature c' method path body timestamp_ms =
     generateSignature c method path body timestamp_ms).
Proof.
  intros Hauth timestamp signature. split; [|split].
  - unfold httpClient.
    set (merged := with_headers _ _).
    exists (request_interceptor c timestamp merged). split.
    + fold timestamp. destruct (settle _); reflexivity.
    + unfold request_interceptor.
      assert (Hm : requiresAuth merged = requiresAuth config) by reflexivity.
      rewrite Hm.
      assert (Hsig : generateSignature c (method merged) (url merged) (data merged)
                       timestamp = signature).
      { rewrite generateSignature_canonical. unfold signature, canonical_string.
        simpl. rewrite toUpperCase_toLowerCase. reflexivity. }
      rewrite Hsig.
      destruct (requiresAuth config) as [[|]|]; try congruence;
        cbn [headers with_headers];
        (split; [|split]);
        repeat first [ rewrite header_set_header_eq
                     | rewrite header_set_header_ne by discriminate ];
        reflexivity.
  - intros. apply generateSignature_canonical.
  - intros c' m p b t Hkey. unfold generateSignature. rewrite Hkey. reflexivity.
Qed.

End RestProperties.

Section StreamProperties.
Context {num : Type} `{Runtime num}.
Import PionexClient Observe.

Lemma scheduled_fired (l : list (Z * bool)) i delay b :
  l !! i = Some (delay, b) -> map fst (<[i := (delay, true)]> l) = map fst l.
Proof.
  revert i. induction l as [|x l IH]; intros [|i] Hi; simpl in *;
    try discriminate.
  - injection Hi as ->. reflexivity.
  - f_equal. apply IH with (i := i). exact Hi.
Qed.

Lemma connectWebSocket_counter (st : @Stream num) :
  wsReconnectAttempts (this (connectWebSocket st)) = wsReconnectAttempts (this st)
  /\ maxReconnectAttempts (this (connectWebSocket st)) = maxReconnectAttempts (this st)
  /\ reconnectDelay (this (connectWebSocket st)) = reconnectDelay (this st)
  /\ timers (connectWebSocket st) = timers st
  /\ emitted (connectWebSocket st) = emitted st.
Proof. unfold connectWebSocket. destruct (connected st); repeat split. Qed.

Lemma on_timer_counter i (st : @Stream num) :
  wsReconnectAttempts (this (on_timer i st)) = wsReconnectAttempts (this st)
  /\ maxReconnectAttempts (this (on_timer i st)) = maxReconnectAttempts (this st)
  /\ reconnectDelay (this (on_timer i st)) = reconnectDelay (this st)
  /\ scheduled (on_timer i st) = scheduled st
  /\ emitted (on_timer i st) = emitted st.
Proof.
  unfold on_timer.
  destruct (timers st !! i) as [[delay [|]]|] eqn:Ei; try (repeat split; fail).
  destruct (connectWebSocket_counter
              (with_timers st (<[i := (delay, true)]> (timers st))))
    as (Ha & Hm & Hd & Ht & He).
  rewrite Ha, Hm, Hd, He. unfold scheduled. rewrite Ht. simpl.
  repeat split. eapply scheduled_fired; eassumption.
Qed.

Lemma handleWebSocketMessage_counter m (st : @Stream num) :
  this (fst (handleWebSocketMessage m st)) = this st
  /\ timers (fst (handleWebSocketMessage m st)) = timers st.
Proof.
  unfold handleWebSocketMessage.
  destruct (get m "event") as [event|]; destruct (get m "data");
    destruct (get m "symbol"); try (split; reflexivity).
  repeat match goal with |- context [if ?b then _ else _] => destruct b end;
    split; reflexivity.
Qed.

(** What one close event does, by the two branches of
    [handleWebSocketReconnect]. *)
Lemma on_close_spec h code reason (st : @Stream num) :
  let st' := on_close h code reason st in
  let n := wsReconnectAttempts (this st) in
  maxReconnectAttempts (this st') = maxReconnectAttempts (this st)
  /\ reconnectDelay (this st') = reconnectDelay (this st)
  /\ length (sockets st') = length (sockets st)
  /\ if n >=? maxReconnectAttempts (this st)
     then wsReconnectAttempts (this st') = n
          /\ timers st' = timers st
          /\ emitted st' = emitted st ++ [wsDisconnected code reason; wsReconnectFailed]
     else wsReconnectAttempts (this st') = n + 1
          /\ timers st' = timers st ++ [(reconnectDelay (this st) * (n + 1), false)]
          /\ emitted st' = emitted st ++ [wsDisconnected code reason].
Proof.
  unfold on_close, handleWebSocketReconnect. simpl.
  destruct (wsReconnectAttempts (this st) >=? maxReconnectAttempts (this st));
    simpl; rewrite ?length_alter, <- ?app_assoc; repeat split.
Qed.

(** C7 -- Ownership of the reconnect counter.  The open event sets
    [wsReconnectAttempts] to 0.  Every other event or method call either
    leaves the counter as it is and schedules no reconnect, or schedules
    exactly one reconnect and increments the counter by exactly one: none
    of them resets it. *)
Theorem reconnect_counter_steps (a : Action) (st : @Stream num) :
  let st' := fst (perform a st) in
  let n := wsReconnectAttempts (this st) in
  let n' := wsReconnectAttempts (this st') in
  match a with
  | Open _ => n' = 0 /\ scheduled st' = scheduled st
  | _ =>
      (n' = n /\ scheduled st' = scheduled st)
      \/ (n' = n + 1
          /\ scheduled st' = scheduled st ++ [reconnectDelay (this st) * (n + 1)])
  end.
Proof.
  destruct a as [h|h payload|h error|h code reason|i| |symbol now
                |symbol interval now|streams now| ]; simpl.
  - split; reflexivity.
  - left. unfold on_message. destruct payload as [m|e]; [|split; reflexivity].
    destruct (handleWebSocketMessage_counter m st) as [Ht Hs].
    unfold scheduled. rewrite Ht, Hs. split; reflexivity.
  - left. split; reflexivity.
  - pose proof (on_close_spec h code reason st) as Hc. simpl in Hc.
    destruct Hc as (_ & _ & _ & Hc).
    destruct (wsReconnectAttempts (this st) >=? maxReconnectAttempts (this st));
      destruct Hc as (Hn & Ht & _); unfold scheduled; rewrite Hn, Ht.
    + left. split; reflexivity.
    + right. rewrite map_app. split; reflexivity.
  - left. destruct (on_timer_counter i st) as (Ha & _ & _ & Hs & _).
    split; assumption.
  - left. destruct (connectWebSocket_counter st) as (Ha & _ & _ & Ht & _).
    unfold scheduled. rewrite Ht. split; [assumption|reflexivity].
  - left. unfold subscribeToTicker, send_frame.
    destruct (connected st); simpl; [|split; reflexivity].
    destruct (ws (this st)); split; reflexivity.
  - left. unfold subscribeToKlines, send_frame.
    destruct (connected st); simpl; [|split; reflexivity].
    destruct (ws (this st)); split; reflexivity.
  - left. unfold unsubscribe, send_frame.
    destruct (connected st); simpl; [|split; reflexivity].
    destruct (ws (this st)); split; reflexivity.
  - left. unfold disconnectWebSocket.
    destruct (ws (this st)); split; reflexivity.
Qed.

Lemma closes_schedule (acts : list (@Action num)) :
  forall st : @Stream num,
    Forall (fun a => is_close a || is_timer a = true) acts ->
    Z.of_nat (length (List.filter is_close acts))
      <= Z.max 0 (maxReconnectAttempts (this st) - wsReconnectAttempts (this st)) ->
    let closes := length (List.filter is_close acts) in
    let st1 := run acts st in
    wsReconnectAttempts (this st1) = wsReconnectAttempts (this st) + Z.of_nat closes
    /\ maxReconnectAttempts (this st1) = maxReconnectAttempts (this st)
    /\ reconnectDelay (this st1) = reconnectDelay (this st)
    /\ scheduled st1 =
         scheduled st
           ++ map (fun k => reconnectDelay (this st) * k)
                  (Zseq (wsReconnectAttempts (this st) + 1) closes)
    /\ (In wsReconnectFailed (emitted st1) -> In wsReconnectFailed (emitted st)).
Proof.
  induction acts as [|a acts IH]; intros st Hall Hlen; simpl.
  - rewrite app_nil_r. repeat split; try lia. tauto.
  - inversion Hall as [|a' acts' Ha Hacts]; subst.
    destruct a; simpl in Ha; try discriminate; simpl in Hlen |- *.
    + (* a close event while attempts remain *)
      pose proof (on_close_spec h code reason st) as Hc. simpl in Hc.
      destruct Hc as (Hm & Hd & _ & Hc).
      destruct (Z.geb_spec (wsReconnectAttempts (this st))
                           (maxReconnectAttempts (this st))); [lia|].
      destruct Hc as (Hn & Ht & He).
      destruct (IH (on_close h code reason st) Hacts) as (Hn1 & Hm1 & Hd1 & Hs1 & He1).
      { rewrite Hm, Hn. lia. }
      fold (run acts (on_close h code reason st)).
      rewrite Hn1, Hm1, Hd1, Hs1, Hn, Hm, Hd.
      unfold scheduled at 1. rewrite Ht, map_app, <- app_assoc. simpl.
      repeat split; try lia.
      intros Hin. apply He1 in Hin. rewrite He in Hin.
      apply in_app_or in Hin. destruct Hin as [Hin|[Hin|[]]];
        [assumption|discriminate].
    + (* a reconnect timer fires *)
      destruct (on_timer_counter i st) as (Hn & Hm & Hd & Hs & He).
      destruct (IH (on_timer i st) Hacts) as (Hn1 & Hm1 & Hd1 & Hs1 & He1).
      { rewrite Hm, Hn. exact Hlen. }
      fold (run acts (on_timer i st)).
      rewrite Hn1, Hm1, Hd1, Hs1, Hn, Hm, Hd, Hs.
      repeat split. rewrite <- He. exact He1.
Qed.

(** C2 -- Reconnect backoff and cap.  Starting from a counter of 0, as
    many close events as [maxReconnectAttempts], each possibly followed by
    the expiry of reconnect timers and with no open event in between,
    schedule reconnects after [reconnectDelay * 1], [reconnectDelay * 2],
    ..., [reconnectDelay * maxReconnectAttempts] and emit no
    [wsReconnectFailed]; a further close event then emits
    [wsReconnectFailed], schedules nothing, creates no socket and leaves
    the counter alone.  A client constructed without options has
    [maxReconnectAttempts = 5] and [reconnectDelay = 5000]. *)
Theorem reconnect_backoff_and_cap (st : @Stream num) (acts : list Action) :
  wsReconnectAttempts (this st) = 0 ->
  Forall (fun a => is_close a || is_timer a = true) acts ->
  length (List.filter is_close acts) = Z.to_nat (maxReconnectAttempts (this st)) ->
  let st1 := run acts st in
  scheduled st1 =
    scheduled st
      ++ map (fun k => reconnectDelay (this st) * k)
             (Zseq 1 (Z.to_nat (maxReconnectAttempts (this st))))
  /\ (In wsReconnectFailed (emitted st1) -> In wsReconnectFailed (emitted st))
  /\ (forall h code reason,
        let st2 := on_close h code reason st1 in
        emitted st2 = emitted st1 ++ [wsDisconnected code reason; wsReconnectFailed]
        /\ timers st2 = timers st1
        /\ length (sockets st2) = length (sockets st1)
        /\ wsReconnectAttempts (this st2) = wsReconnectAttempts (this st1))
  /\ (forall apiKey secretKey,
        let d := constructor apiKey secretKey no_options in
        maxReconnectAttempts d = 5 /\ reconnectDelay d = 5000).
Proof.
  intros H0 Hall Hlen.
  destruct (closes_schedule acts st Hall) as (Hn & Hm & Hd & Hs & He).
  { rewrite Hlen, H0. lia. }
  rewrite Hlen, H0 in Hs, Hn. simpl in Hs.
  split; [exact Hs|]. split; [exact He|]. split; [|intros; split; reflexivity].
  intros h code reason.
  pose proof (on_close_spec h code reason (run acts st)) as Hc. simpl in Hc.
  destruct Hc as (_ & _ & Hl & Hc).
  destruct (Z.geb_spec (wsReconnectAttempts (this (run acts st)))
                       (maxReconnectAttempts (this (run acts st)))) as [Hge|Hlt].
  - destruct Hc as (Hn2 & Ht2 & He2). repeat split; assumption.
  - rewrite Hn, Hm in Hlt. lia.
Qed.

(** C8 -- Commands on the stream.  While the connection is not open,
    [subscribeToTicker], [subscribeToKlines] and [unsubscribe] throw
    [WebSocket not connected] and leave everything as it was: nothing is
    sent and nothing is kept for later.  While it is open, each sends one
    frame on the current socket: [SUBSCRIBE] with the single stream id
    [lower(symbol)@ticker], [SUBSCRIBE] with [lower(symbol)@kline_interval]
    (the interval as given), or [UNSUBSCRIBE] with the caller's stream ids
    as given; the frame's id is the current time. *)
Theorem stream_commands (st : @Stream num) (now : Z) symbol interval streams :
  let frame m ps := {| f_method := m; f_params := ps; f_id := now |} in
  let ticker_frame := frame "SUBSCRIBE"%string [toLowerCase symbol +:+ "@ticker"] in
  let klines_frame :=
    frame "SUBSCRIBE"%string [toLowerCase symbol +:+ "@kline_" +:+ interval] in
  let unsubscribe_frame :=
    frame "UNSUBSCRIBE"%string (match streams with Many l => l | One s => [s] end) in
  (connected st = true <-> is_Open st)
  /\ if connected st then
       (forall f, outbox (send_frame f st) = outbox st ++ [f])
       /\ subscribeToTicker symbol now st = (send_frame ticker_frame st, inl tt)
       /\ subscribeToKlines symbol interval now st = (send_frame klines_frame st, inl tt)
       /\ unsubscribe streams now st = (send_frame unsubscribe_frame st, inl tt)
     else
       subscribeToTicker symbol now st = (st, inr not_connected)
       /\ subscribeToKlines symbol interval now st = (st, inr not_connected)
       /\ unsubscribe streams now st = (st, inr not_connected).
Proof.
  simpl. split.
  - unfold connected, is_Open. split.
    + destruct (ws (this st)) as [h|]; [|discriminate].
      destruct (sockets st !! h) as [s|] eqn:Es; [|discriminate].
      intros Ho. exists h, s. repeat split; try assumption.
      destruct (readyState s); simpl in Ho; congruence.
    + intros (h & s & -> & -> & ->). reflexivity.
  - unfold subscribeToTicker, subscribeToKlines, unsubscribe.
    destruct (connected st) eqn:Ec; simpl; [|repeat split].
    repeat split. intros f. unfold connected in Ec. unfold outbox, send_frame.
    destruct (ws (this st)) as [h|] eqn:Ew; [|discriminate]. simpl. rewrite Ew.
    rewrite list_lookup_alter.
    destruct (sockets st !! h) as [s|]; [|discriminate].
    case_decide; [reflexivity|congruence].
Qed.

End StreamProperties.

Section HubProperties.
Context {num : Type} `{Runtime num}.
Import TradingServer Observe.

Lemma set_has_In (x : string) s : set_has String.eqb x s = true <-> In x s.
Proof.
  unfold set_has. rewrite existsb_exists. split.
  - intros (y & Hy & E). apply String.eqb_eq in E. subst. exact Hy.
  - intros Hx. exists x. split; [exact Hx|apply String.eqb_refl].
Qed.

Lemma set_add_In (x k : string) s : In k (set_add String.eqb x s) <-> k = x \/ In k s.
Proof.
  unfold set_add. fold (set_has String.eqb x s).
  destruct (set_has String.eqb x s) eqn:E.
  - apply set_has_In in E. split; [tauto|]. intros [->|Hk]; assumption.
  - rewrite in_app_iff. simpl. split; [intros [?|[?|[]]]|intros [?|?]]; auto.
Qed.

Lemma set_add_NoDup (x : string) s : List.NoDup s -> List.NoDup (set_add String.eqb x s).
Proof.
  intros Hs. unfold set_add. fold (set_has String.eqb x s).
  destruct (set_has String.eqb x s) eqn:E; [exact Hs|].
  assert (Hx : ~ In x s) by (rewrite <- set_has_In; congruence).
  apply NoDup_ListNoDup, NoDup_app.
  split; [apply NoDup_ListNoDup; exact Hs|]. split; [|apply NoDup_singleton].
  intros y Hy Hy'. apply list_elem_of_In in Hy. apply list_elem_of_In in Hy'.
  destruct Hy' as [<-|[]]. contradiction.
Qed.

Lemma set_add_count (x : string) s :
  List.NoDup s -> count_occ string_dec (set_add String.eqb x s) x = 1%nat.
Proof.
  intros Hs. apply NoDup_count_occ'.
  - apply set_add_NoDup. exact Hs.
  - apply set_add_In. left. reflexivity.
Qed.

Lemma set_add_present (x : string) s : In x s -> set_add String.eqb x s = s.
Proof.
  intros Hx. unfold set_add. fold (set_has String.eqb x s).
  apply set_has_In in Hx. rewrite Hx. reflexivity.
Qed.

Lemma set_delete_In (x k : string) s :
  In k (set_delete String.eqb x s) <-> In k s /\ k <> x.
Proof.
  unfold set_delete. rewrite filter_In, negb_true_iff, String.eqb_neq.
  split; intros [? ?]; split; auto.
Qed.

Lemma set_delete_absent (x : string) s : ~ In x s -> set_delete String.eqb x s = s.
Proof.
  unfold set_delete. induction s as [|y s IH]; simpl; [reflexivity|].
  intros Hx. destruct (String.eqb_spec x y) as [->|Hne]; simpl.
  - tauto.
  - f_equal. apply IH. tauto.
Qed.

Lemma set_delete_NoDup (x : string) s :
  List.NoDup s -> List.NoDup (set_delete String.eqb x s).
Proof. apply List.NoDup_filter. Qed.

(** The two handlers on a payload whose channel and symbol make a key. *)
Lemma handleSubscription_keyed data channel symbol key (ws : @WebSocket num) :
  get data "channel" = inl channel ->
  get data "symbol" = inl symbol ->
  subscription_key channel symbol = inl key ->
  handleSubscription data ws =
    ({| clientId := clientId ws; readyState := readyState ws;
        subscriptions :=
          Some (set_add String.eqb key (default [] (subscriptions ws)));
        sent := sent ws ++ [subscribed channel symbol key] |}, inl tt).
Proof.
  intros Hc Hs Hk.
  unfold handleSubscription, bind, lift, get_subscriptions. rewrite Hc, Hs.
  destruct ws as [id state [keys|] out]; simpl; rewrite Hk; reflexivity.
Qed.

Lemma handleUnsubscription_keyed data channel symbol key (ws : @WebSocket num) :
  get data "channel" = inl channel ->
  get data "symbol" = inl symbol ->
  subscription_key channel symbol = inl key ->
  handleUnsubscription data ws =
    match subscriptions ws with
    | Some keys =>
        ({| clientId := clientId ws; readyState := readyState ws;
            subscriptions := Some (set_delete String.eqb key keys);
            sent := sent ws ++ [unsubscribed channel symbol key] |}, inl tt)
    | None => (ws, inl tt)
    end.
Proof.
  intros Hc Hs Hk.
  unfold handleUnsubscription, bind, lift, get_subscriptions. rewrite Hc, Hs.
  destruct ws as [id state [keys|] out]; simpl; [rewrite Hk|]; reflexivity.
Qed.

Lemma pair_data_key channel symbol :
  get (pair_data (num := num) channel symbol) "channel" = inl (VStr channel)
  /\ get (pair_data (num := num) channel symbol) "symbol" = inl (VStr symbol)
  /\ subscription_key (VStr channel) (VStr symbol : value num)
     = inl (channel +:+ ":" +:+ symbol).
Proof. repeat split. Qed.

(** C6 -- Subscription idempotence.  Subscribing twice with the same
    channel and symbol leaves exactly one entry for their key in the
    session's key set, the second subscription changing nothing in it;
    unsubscribing from a key that is not in the set, or when there is no
    set yet, returns normally and leaves the set as it was.  For a channel
    and a symbol that are strings the key is [channel:symbol]. *)
Theorem subscription_idempotence data channel symbol key (ws : @WebSocket num) :
  get data "channel" = inl channel ->
  get data "symbol" = inl symbol ->
  subscription_key channel symbol = inl key ->
  (forall keys, subscriptions ws = Some keys -> List.NoDup keys) ->
  (exists ws1 ws2 keys,
     handleSubscription data ws = (ws1, inl tt)
     /\ handleSubscription data ws1 = (ws2, inl tt)
     /\ subscriptions ws2 = Some keys
     /\ count_occ string_dec keys key = 1%nat
     /\ subscriptions ws2 = subscriptions ws1)
  /\ (forall keys,
        subscriptions ws = Some keys -> ~ In key keys ->
        exists ws', handleUnsubscription data ws = (ws', inl tt)
                    /\ subscriptions ws' = Some keys)
  /\ (subscriptions ws = None -> handleUnsubscription data ws = (ws, inl tt))
  /\ (forall c s : string,
        subscription_key (VStr c) (VStr s : value num) = inl (c +:+ ":" +:+ s)).
Proof.
  intros Hc Hs Hk Hnd. split; [|split; [|split; [|reflexivity]]].
  - rewrite (handleSubscription_keyed _ _ _ _ ws Hc Hs Hk).
    eexists. rewrite (handleSubscription_keyed _ _ _ _ _ Hc Hs Hk). simpl.
    eexists. eexists. split; [reflexivity|]. split; [reflexivity|].
    split; [reflexivity|].
    assert (Hnd' : List.NoDup (default [] (subscriptions ws))).
    { destruct (subscriptions ws) as [keys|]; simpl; [auto|constructor]. }
    cbn [subscriptions default]. split.
    + rewrite set_add_present by (apply set_add_In; left; reflexivity).
      apply set_add_count. exact Hnd'.
    + f_equal. apply set_add_present. apply set_add_In. left. reflexivity.
  - intros keys Hkeys Hout.
    rewrite (handleUnsubscription_keyed _ _ _ _ ws Hc Hs Hk), Hkeys.
    eexists. split; [reflexivity|]. simpl. f_equal.
    apply set_delete_absent. exact Hout.
  - intros Hnone.
    rewrite (handleUnsubscription_keyed _ _ _ _ ws Hc Hs Hk), Hnone. reflexivity.
Qed.

(** C9 -- Unsubscription.  For a session that has a key set, an
    unsubscribe message removes the key and nothing else, removing an
    absent key changes nothing, and in both cases the session is sent
    [unsubscribed]; for a session that has never subscribed the message is
    ignored without error: nothing changes and nothing is sent. *)
Theorem unsubscription_acknowledged data channel symbol key (ws : @WebSocket num) :
  get data "channel" = inl channel ->
  get data "symbol" = inl symbol ->
  subscription_key channel symbol = inl key ->
  match subscriptions ws with
  | Some keys =>
      exists ws' keys',
        handleUnsubscription data ws = (ws', inl tt)
        /\ subscriptions ws' = Some keys'
        /\ ~ In key keys'
        /\ (forall k, k <> key -> (In k keys' <-> In k keys))
        /\ (~ In key keys -> keys' = keys)
        /\ sent ws' = sent ws ++ [unsubscribed channel symbol key]
        /\ readyState ws' = readyState ws
        /\ clientId ws' = clientId ws
  | None => handleUnsubscription data ws = (ws, inl tt)
  end.
Proof.
  intros Hc Hs Hk.
  rewrite (handleUnsubscription_keyed _ _ _ _ ws Hc Hs Hk).
  destruct (subscriptions ws) as [keys|]; [|reflexivity].
  eexists. eexists. split; [reflexivity|]. simpl. split; [reflexivity|].
  split; [|split; [|split; [|repeat split]]].
  - rewrite set_delete_In. tauto.
  - intros k Hne. rewrite set_delete_In. tauto.
  - apply set_delete_absent.
Qed.

Lemma wants_entitled key (ws : @WebSocket num) :
  wants key ws = true <->
  readyState ws = WS.OPEN /\ exists keys, subscriptions ws = Some keys /\ In key keys.
Proof.
  unfold wants. rewrite andb_true_iff. split.
  - intros [Ho Hk]. split; [destruct (readyState ws); simpl in Ho; congruence|].
    destruct (subscriptions ws) as [keys|]; [|discriminate].
    exists keys. split; [reflexivity|]. apply set_has_In. exact Hk.
  - intros [Ho (keys & Hs & Hk)]. rewrite Ho, Hs. split; [reflexivity|].
    apply set_has_In. exact Hk.
Qed.

Lemma fold_alter_outside (f : @WebSocket num -> WebSocket) (l : list nat) :
  forall (socks : list (@WebSocket num)) (h : nat), ~ In h l ->
    fold_left (fun s i => alter f i s) l socks !! h = socks !! h.
Proof.
  induction l as [|i l IH]; intros socks h Hh; simpl; [reflexivity|].
  rewrite IH by (simpl in Hh; tauto).
  apply list_lookup_alter_ne. simpl in Hh. intros ->. tauto.
Qed.

Lemma fold_alter_inside (f : @WebSocket num -> WebSocket) (l : list nat) :
  forall (socks : list (@WebSocket num)) (h : nat), List.NoDup l -> In h l ->
    fold_left (fun s i => alter f i s) l socks !! h = f <$> socks !! h.
Proof.
  induction l as [|i l IH]; intros socks h Hnd Hh; simpl; [destruct Hh|].
  inversion Hnd as [|i' l' Hi Hl]; subst.
  destruct (Nat.eq_dec i h) as [->|Hne].
  - rewrite fold_alter_outside by exact Hi.
    rewrite list_lookup_alter. case_decide; [reflexivity|congruence].
  - rewrite IH; [|exact Hl|destruct Hh; [contradiction|assumption]].
    rewrite list_lookup_alter_ne by exact Hne. reflexivity.
Qed.

(** C4 -- Fan-out.  A broadcast for a channel and symbol that make the key
    [key] sends the [data] message, once, to exactly the sessions that are
    registered, whose socket is open and whose key set contains [key];
    every other socket, in particular one that is closed but still
    registered, is left untouched.  For a channel and a symbol that are
    strings the key is [channel:symbol]. *)
Theorem fan_out (srv : @server num) channel symbol data now key :
  List.NoDup (wsClients srv) ->
  subscription_key channel symbol = inl key ->
  (exists srv',
     broadcastToSubscribers channel symbol data now srv = (srv', inl tt)
     /\ wsClients srv' = wsClients srv
     /\ forall h ws,
          sockets srv !! h = Some ws ->
          exists ws',
            sockets srv' !! h = Some ws'
            /\ ((entitled srv h ws key
                 /\ ws' = sent_one (data_message channel symbol data now) ws)
                \/ (~ entitled srv h ws key /\ ws' = ws)))
  /\ (forall c s : string,
        subscription_key (VStr c) (VStr s : value num) = inl (c +:+ ":" +:+ s)).
Proof.
  intros Hnd Hk. split; [|reflexivity].
  unfold broadcastToSubscribers. rewrite Hk.
  eexists. split; [reflexivity|]. split; [reflexivity|]. simpl.
  intros h ws Hws. unfold entitled.
  destruct (in_dec Nat.eq_dec h (wsClients srv)) as [Hin|Hout].
  - rewrite fold_alter_inside by assumption. rewrite Hws. simpl.
    eexists. split; [reflexivity|]. unfold deliver.
    destruct (wants key ws) eqn:Ew.
    + left. apply wants_entitled in Ew. split; [tauto|reflexivity].
    + right. split; [|reflexivity]. intros (_ & Ho & Hkeys).
      assert (wants key ws = true) by (apply wants_entitled; tauto). congruence.
  - rewrite fold_alter_outside by assumption.
    exists ws. split; [exact Hws|]. right. split; [tauto|reflexivity].
Qed.

Lemma get_defined (m : value num) k k' v :
  get m k = inl v -> exists v', get m k' = inl v'.
Proof. destruct m; simpl; try discriminate; eauto. Qed.

(** A handler leaves the socket open under the same id, and when it
    throws it has not sent anything. *)
Ltac crunch :=
  repeat match goal with
         | |- context [match ?x with inl _ => _ | inr _ => _ end] =>
             destruct x eqn:?; simpl
         | |- context [match ?x with Some _ => _ | None => _ end] =>
             destruct x eqn:?; simpl
         | |- context [if ?b then _ else _] => destruct b eqn:?; simpl
         end.

Lemma handleWebSocketMessage_frame now m (ws : @WebSocket num) :
  let '(ws1, r) := handleWebSocketMessage now m ws in
  readyState ws1 = readyState ws /\ clientId ws1 = clientId ws
  /\ match r with
     | inl _ => True
     | inr _ => sent ws1 = sent ws
     end.
Proof.
  unfold handleWebSocketMessage, handleSubscription, handleUnsubscription,
    bind, lift, get_subscriptions, set_subscriptions, ws_send, ret.
  destruct ws as [id state subs out]. simpl.
  crunch; repeat split.
Qed.

(** C10 -- Inbound frames that cannot be served.  For an inbound frame
    that is not JSON, or whose type is unknown, or whose handling throws,
    the message handler returns normally, the socket has been sent exactly
    one more message and it is an [error] message, the socket's state and
    id are unchanged and the set of registered sessions is the same.  A
    [subscribe] message without a [data] object is such a frame. *)
Theorem unserved_frame_answered (srv : @server num) h ws now payload :
  sockets srv !! h = Some ws ->
  unserved now ws payload ->
  (exists ws' text,
     at_socket h (on_message now payload) srv =
       ({| sockets := <[h := ws']> (sockets srv); wsClients := wsClients srv |},
        Some (inl tt))
     /\ sent ws' = sent ws ++ [error_message text]
     /\ readyState ws' = readyState ws
     /\ clientId ws' = clientId ws)
  /\ snd (handleWebSocketMessage now (VObj [("type", VStr "subscribe")]%string) ws)
     = inr TypeError.
Proof.
  intros Hws Hbad. split; [|reflexivity].
  unfold at_socket. rewrite Hws.
  assert (Hone : exists ws' text,
             on_message now payload ws = (ws', inl tt)
             /\ sent ws' = sent ws ++ [error_message text]
             /\ readyState ws' = readyState ws /\ clientId ws' = clientId ws).
  { unfold on_message, try_catch, bind, lift.
    destruct Hbad as [e|m type Ht Hs Hu Hp|m e He].
    - eexists. eexists. split; [reflexivity|]. repeat split.
    - destruct (get_defined m "type" "data" type Ht) as [data Hd].
      unfold handleWebSocketMessage, bind, lift. rewrite Ht, Hd, Hs, Hu, Hp.
      destruct (ToString type) as [text|e];
        eexists; eexists; (split; [reflexivity|]); repeat split.
    - pose proof (handleWebSocketMessage_frame now m ws) as Hf.
      destruct (handleWebSocketMessage now m ws) as [ws1 [u|e']];
        simpl in He; [discriminate|].
      destruct Hf as (Hr & Hi & Hsent).
      eexists. eexists. split; [reflexivity|]. simpl.
      rewrite Hsent, Hr, Hi. repeat split. }
  destruct Hone as (ws' & text & Hrun & Hsent & Hr & Hi).
  exists ws', text. rewrite Hrun. repeat split; assumption.
Qed.

End HubProperties.

(** ** The properties at concrete inputs *)

Import Sample Examples Observe.

Local Open Scope string_scope.

(** C1 at the default client: three attempts, waits of 1 s and 2 s. *)
Lemma retry_bound_on_503_witness :
  1 <= PionexClient.maxRetries defaults
  /\ (forall i cfg,
        PionexClient.respond (always 503 unavailable) i cfg
        = PionexClient.Responded 503 unavailable)
  /\ exists tail,
       PionexClient.makeRequest defaults (always 503 unavailable)
         "GET" "/v1/account/balances" VNull plain []
       = (tail, inr (Error "Pionex API Error (503): Service Unavailable"))
       /\ timeline tail = [None; Some 1000; None; Some 2000; None].
Proof.
  assert (Hmax : 1 <= PionexClient.maxRetries defaults) by (simpl; lia).
  assert (Hex : forall i cfg,
             PionexClient.respond (always 503 unavailable) i cfg
             = PionexClient.Responded 503 unavailable) by reflexivity.
  split; [exact Hmax|]. split; [exact Hex|].
  destruct (retry_bound_on_503 defaults (always 503 unavailable)
              "GET" "/v1/account/balances" VNull plain [] unavailable Hmax Hex)
    as [(tail & Hrun & _ & Htl & _) _].
  exists tail. split; [exact Hrun|exact Htl].
Defined.

(** C5 at the default client: an order answered with HTTP 400 is sent
    three times. *)
Lemma client_error_is_retried_witness :
  1 <= PionexClient.maxRetries defaults
  /\ 400 <= 400 < 500
  /\ 400 <> 429
  /\ (forall i cfg,
        PionexClient.respond (always 400 invalid) i cfg
        = PionexClient.Responded 400 invalid)
  /\ exists tail,
       PionexClient.makeRequest defaults (always 400 invalid)
         "POST" "/v1/trade/orders" order plain []
       = (tail, inr (Error "Pionex API Error (400): Invalid symbol"))
       /\ Z.of_nat (PionexClient.attempts tail) = 3
       /\ PionexClient.delays tail = [1000; 2000].
Proof.
  assert (Hmax : 1 <= PionexClient.maxRetries defaults) by (simpl; lia).
  assert (Hst : 400 <= 400 < 500) by lia.
  assert (Hne : 400 <> 429) by lia.
  assert (Hex : forall i cfg,
             PionexClient.respond (always 400 invalid) i cfg
             = PionexClient.Responded 400 invalid) by reflexivity.
  split; [exact Hmax|]. split; [exact Hst|]. split; [exact Hne|].
  split; [exact Hex|].
  destruct (client_error_is_retried defaults (always 400 invalid)
              "POST" "/v1/trade/orders" order plain [] 400 invalid
              Hmax Hst Hne Hex)
    as (_ & _ & tail & Hrun & Hn & Hd).
  exists tail. split; [exact Hrun|]. split; [exact Hn|exact Hd].
Defined.

(** C3 on an order placement. *)
Lemma signature_scheme_witness :
  PionexClient.requiresAuth order_config <> Some false
  /\ exists sentConfig,
       fst (PionexClient.httpClient defaults (always 200 VNull) order_config [])
       = [PionexClient.Requested sentConfig]
       /\ header "PIONEX-KEY" (PionexClient.headers sentConfig) = Some "key"
       /\ header "PIONEX-TIMESTAMP" (PionexClient.headers sentConfig)
          = Some "1700000000000".
Proof.
  assert (Hauth : PionexClient.requiresAuth order_config <> Some false)
    by discriminate.
  split; [exact Hauth|].
  destruct (signature_scheme defaults (always 200 VNull) order_config [] Hauth)
    as [(sentConfig & Hrun & Hkey & _ & Hts) _].
  exists sentConfig. split; [exact Hrun|]. split; [exact Hkey|exact Hts].
Defined.

(** C2 at the default client: 5 s, 10 s, 15 s, 20 s, 25 s, then failure. *)
Lemma reconnect_backoff_and_cap_witness :
  PionexClient.wsReconnectAttempts (PionexClient.this started) = 0
  /\ Forall (fun a => PionexClient.is_close a || PionexClient.is_timer a = true)
            five_drops
  /\ length (List.filter PionexClient.is_close five_drops)
     = Z.to_nat (PionexClient.maxReconnectAttempts (PionexClient.this started))
  /\ PionexClient.scheduled (PionexClient.run five_drops started)
     = [5000; 10000; 15000; 20000; 25000]
  /\ PionexClient.timers
       (PionexClient.on_close 5 1006 "" (PionexClient.run five_drops started))
     = PionexClient.timers (PionexClient.run five_drops started).
Proof.
  assert (H0 : PionexClient.wsReconnectAttempts (PionexClient.this started) = 0)
    by reflexivity.
  assert (Hall : Forall (fun a => PionexClient.is_close a || PionexClient.is_timer a = true)
                        five_drops)
    by (repeat constructor).
  assert (Hlen : length (List.filter PionexClient.is_close five_drops)
                 = Z.to_nat (PionexClient.maxReconnectAttempts (PionexClient.this started)))
    by reflexivity.
  split; [exact H0|]. split; [exact Hall|]. split; [exact Hlen|].
  destruct (reconnect_backoff_and_cap started five_drops H0 Hall Hlen)
    as (Hs & _ & Hcap & _).
  split; [exact Hs|].
  destruct (Hcap 5%nat 1006 "") as (_ & Ht & _). exact Ht.
Defined.

(** C4 on three sessions: A receives, B and the closed C do not. *)
Lemma fan_out_witness :
  List.NoDup (TradingServer.wsClients hub)
  /\ TradingServer.subscription_key (VStr "ticker") (VStr "BTCUSDT" : value Z)
     = inl "ticker:BTCUSDT"
  /\ exists srv',
       TradingServer.broadcastToSubscribers (VStr "ticker") (VStr "BTCUSDT") price "t1" hub
       = (srv', inl tt)
       /\ TradingServer.wsClients srv' = TradingServer.wsClients hub.
Proof.
  assert (Hnd : List.NoDup (TradingServer.wsClients hub)).
  { repeat constructor; simpl; intuition lia. }
  assert (Hk : TradingServer.subscription_key (VStr "ticker") (VStr "BTCUSDT" : value Z)
               = inl "ticker:BTCUSDT") by reflexivity.
  split; [exact Hnd|]. split; [exact Hk|].
  destruct (fan_out hub (VStr "ticker") (VStr "BTCUSDT") price "t1" "ticker:BTCUSDT"
              Hnd Hk) as [(srv' & Hrun & Hreg & _) _].
  exists srv'. split; [exact Hrun|exact Hreg].
Defined.

(** C6 on a session that has just connected. *)
Lemma subscription_idempotence_witness :
  get btc "channel" = inl (VStr "ticker")
  /\ get btc "symbol" = inl (VStr "BTCUSDT")
  /\ TradingServer.subscription_key (VStr "ticker") (VStr "BTCUSDT" : value Z)
     = inl "ticker:BTCUSDT"
  /\ (forall keys, TradingServer.subscriptions newcomer = Some keys -> List.NoDup keys)
  /\ exists ws1 ws2 keys,
       TradingServer.handleSubscription btc newcomer = (ws1, inl tt)
       /\ TradingServer.handleSubscription btc ws1 = (ws2, inl tt)
       /\ TradingServer.subscriptions ws2 = Some keys
       /\ count_occ string_dec keys "ticker:BTCUSDT" = 1%nat.
Proof.
  assert (Hc : get btc "channel" = inl (VStr "ticker")) by reflexivity.
  assert (Hs : get btc "symbol" = inl (VStr "BTCUSDT")) by reflexivity.
  assert (Hk : TradingServer.subscription_key (VStr "ticker") (VStr "BTCUSDT" : value Z)
               = inl "ticker:BTCUSDT") by reflexivity.
  assert (Hnd : forall keys,
             TradingServer.subscriptions newcomer = Some keys -> List.NoDup keys)
    by (intros keys; discriminate).
  split; [exact Hc|]. split; [exact Hs|]. split; [exact Hk|]. split; [exact Hnd|].
  destruct (subscription_idempotence btc (VStr "ticker") (VStr "BTCUSDT")
              "ticker:BTCUSDT" newcomer Hc Hs Hk Hnd)
    as [(ws1 & ws2 & keys & H1 & H2 & H3 & H4 & _) _].
  exists ws1, ws2, keys. repeat split; assumption.
Defined.

(** C9 on session A of the hub, which follows the key. *)
Lemma unsubscription_acknowledged_witness :
  get btc "channel" = inl (VStr "ticker")
  /\ get btc "symbol" = inl (VStr "BTCUSDT")
  /\ TradingServer.subscription_key (VStr "ticker") (VStr "BTCUSDT" : value Z)
     = inl "ticker:BTCUSDT"
  /\ exists ws' keys',
       TradingServer.handleUnsubscription btc (session "A" WS.OPEN ["ticker:BTCUSDT"])
       = (ws', inl tt)
       /\ TradingServer.subscriptions ws' = Some keys'
       /\ ~ In "ticker:BTCUSDT" keys'
       /\ TradingServer.sent ws'
          = [TradingServer.unsubscribed (VStr "ticker") (VStr "BTCUSDT") "ticker:BTCUSDT"].
Proof.
  assert (Hc : get btc "channel" = inl (VStr "ticker")) by reflexivity.
  assert (Hs : get btc "symbol" = inl (VStr "BTCUSDT")) by reflexivity.
  assert (Hk : TradingServer.subscription_key (VStr "ticker") (VStr "BTCUSDT" : value Z)
               = inl "ticker:BTCUSDT") by reflexivity.
  split; [exact Hc|]. split; [exact Hs|]. split; [exact Hk|].
  pose proof (unsubscription_acknowledged btc (VStr "ticker") (VStr "BTCUSDT")
                "ticker:BTCUSDT" (session "A" WS.OPEN ["ticker:BTCUSDT"]) Hc Hs Hk)
    as Hu.
  simpl in Hu. destruct Hu as (ws' & keys' & H1 & H2 & H3 & _ & _ & H6 & _).
  exists ws', keys'. repeat split; assumption.
Defined.

(** C9 as stated fails on a session that has never subscribed: its
    unsubscribe message is not acknowledged. *)
Lemma unsubscribe_before_subscribe_is_silent :
  TradingServer.subscriptions newcomer = None
  /\ TradingServer.handleUnsubscription btc newcomer = (newcomer, inl tt)
  /\ TradingServer.sent newcomer = [TradingServer.connection "c1" "t0"]
  /\ ~ In (TradingServer.unsubscribed (VStr "ticker") (VStr "BTCUSDT") "ticker:BTCUSDT")
          (TradingServer.sent (fst (TradingServer.handleUnsubscription btc newcomer))).
Proof.
  repeat split. simpl. intros [Hm|[]]. discriminate.
Qed.

(** C8 as stated fails on [unsubscribe]: the stream ids go out as the
    caller wrote them, upper case included. *)
Lemma unsubscribe_sends_ids_as_given :
  PionexClient.connected open_stream = true
  /\ outbox (fst (PionexClient.unsubscribe (PionexClient.One "BTCUSDT@ticker") 7
                    open_stream))
     = [{| PionexClient.f_method := "UNSUBSCRIBE";
           PionexClient.f_params := ["BTCUSDT@ticker"];
           PionexClient.f_id := 7 |}]
  /\ toLowerCase "BTCUSDT@ticker" = "btcusdt@ticker"
  /\ "BTCUSDT@ticker" <> toLowerCase "BTCUSDT@ticker".
Proof. repeat split. discriminate. Qed.

(** C10 on session A of the hub and a frame that is not JSON. *)
Lemma unserved_frame_answered_witness :
  TradingServer.sockets hub !! 0%nat = Some (session "A" WS.OPEN ["ticker:BTCUSDT"])
  /\ unserved "t1" (session "A" WS.OPEN ["ticker:BTCUSDT"]) (inr SyntaxError)
  /\ exists ws' text,
       TradingServer.at_socket 0 (TradingServer.on_message "t1" (inr SyntaxError)) hub
       = ({| TradingServer.sockets := <[0%nat := ws']> (TradingServer.sockets hub);
             TradingServer.wsClients := TradingServer.wsClients hub |},
          Some (inl tt))
       /\ TradingServer.sent ws' = [TradingServer.error_message text]
       /\ TradingServer.readyState ws' = WS.OPEN.
Proof.
  assert (Hws : TradingServer.sockets hub !! 0%nat
                = Some (session "A" WS.OPEN ["ticker:BTCUSDT"])) by reflexivity.
  assert (Hbad : unserved "t1" (session "A" WS.OPEN ["ticker:BTCUSDT"])
                   (inr SyntaxError)) by constructor.
  split; [exact Hws|]. split; [exact Hbad|].
  destruct (unserved_frame_answered hub 0%nat _ "t1" _ Hws Hbad)
    as [(ws' & text & Hrun & Hsent & Hr & _) _].
  exists ws', text. repeat split; assumption.
Defined.

(** ** The scenarios of the specification, evaluated *)

(** A ticker event for BTCUSDT reaches A, not B, and not the closed C. *)
Example fan_out_scenario :
  map TradingServer.sent
      (TradingServer.sockets
         (fst (TradingServer.broadcastToSubscribers
                 (VStr "ticker") (VStr "BTCUSDT") price "t1" hub)))
  = [[TradingServer.data_message (VStr "ticker") (VStr "BTCUSDT") price "t1"]; []; []].
Proof. reflexivity. Qed.

(** Once A has unsubscribed, the same event reaches nobody: A's socket
    holds the acknowledgement and nothing else. *)
Example fan_out_after_unsubscribe :
  let srv1 := fst (TradingServer.at_socket 0 (TradingServer.handleUnsubscription btc) hub) in
  map TradingServer.sent
      (TradingServer.sockets
         (fst (TradingServer.broadcastToSubscribers
                 (VStr "ticker") (VStr "BTCUSDT") price "t1" srv1)))
  = [[TradingServer.unsubscribed (VStr "ticker") (VStr "BTCUSDT") "ticker:BTCUSDT"];
     []; []].
Proof. reflexivity. Qed.

(** Connect, subscribe, broadcast: the welcome, the acknowledgement and
    the data message, in this order. *)
Example subscribe_then_broadcast :
  let srv0 := TradingServer.on_connection "c1" "t0"
                {| TradingServer.sockets := []; TradingServer.wsClients := [] |} in
  let srv1 :=
    fst (TradingServer.at_socket 0
           (TradingServer.on_message "t1"
              (inl (VObj [("type", VStr "subscribe"); ("data", btc)]))) srv0) in
  map TradingServer.sent
      (TradingServer.sockets
         (fst (TradingServer.broadcastToSubscribers
                 (VStr "ticker") (VStr "BTCUSDT") price "t2" srv1)))
  = [[TradingServer.connection "c1" "t0";
      TradingServer.subscribed (VStr "ticker") (VStr "BTCUSDT") "ticker:BTCUSDT";
      TradingServer.data_message (VStr "ticker") (VStr "BTCUSDT") price "t2"]].
Proof. reflexivity. Qed.

(** A [subscribe] message without [data], and one whose channel cannot be
    converted to text, are answered with the handler's error message. *)
Example subscribe_without_data :
  TradingServer.sent
    (fst (TradingServer.on_message "t1" (inl (VObj [("type", VStr "subscribe")]))
            newcomer))
  = [TradingServer.connection "c1" "t0";
     TradingServer.error_message "Invalid JSON message"].
Proof. reflexivity. Qed.

Example subscribe_with_unprintable_channel :
  let data : value Z :=
    VObj [("channel", VObj [("toString", VNum 1)]); ("symbol", VStr "BTCUSDT")] in
  fst (TradingServer.on_message "t1"
         (inl (VObj [("type", VStr "subscribe"); ("data", data)])) newcomer)
  = {| TradingServer.clientId := "c1"; TradingServer.readyState := WS.OPEN;
       TradingServer.subscriptions := Some [];
       TradingServer.sent :=
         [TradingServer.connection "c1" "t0";
          TradingServer.error_message "Invalid JSON message"] |}.
Proof. reflexivity. Qed.

(** The signed order of the sample client. *)
Example signed_order :
  PionexClient.generateSignature defaults "post" "/v1/trade/orders" order 1700000000000
  = hmac_sha256_hex "secret"
      ("POST/v1/trade/orders" +:+ JSON_stringify order +:+ "1700000000000").
Proof. reflexivity. Qed.

(** A request without a body signs nothing between path and timestamp. *)
Example signed_query :
  PionexClient.generateSignature defaults "get" "/v1/account/balances" VNull 1700000000000
  = hmac_sha256_hex "secret" "GET/v1/account/balances1700000000000".
Proof. reflexivity. Qed.

(** In isolation the retry loop gives up at once on an error that still
    carries its 400 response. *)
Example raw_400_once :
  let failing (w : @PionexClient.World Z) :=
    ((w ++ [PionexClient.Requested order_config])%list,
     inr (AxiosError (status_error 400 invalid))) in
  PionexClient.executeWithRetry defaults failing 1 []
  = ([PionexClient.Requested order_config], inr (AxiosError (status_error 400 invalid))).
Proof. reflexivity. Qed.

(** The kline subscription lower-cases the symbol and keeps the interval. *)
Example klines_frame :
  outbox (fst (PionexClient.subscribeToKlines "BTCUSDT" "1h" 7 open_stream))
  = [{| PionexClient.f_method := "SUBSCRIBE";
        PionexClient.f_params := ["btcusdt@kline_1h"];
        PionexClient.f_id := 7 |}].
Proof. reflexivity. Qed.

(** * Further properties of the REST client *)

Local Open Scope list_scope.

Section RestExtras.
Context {num : Type} `{Runtime num}.

(** One turn of the retry loop. *)
Lemma executeWithRetry_turn c requestFn attempt (w : @PionexClient.World num) :
  PionexClient.executeWithRetry c requestFn attempt w =
  match requestFn w with
  | (w1, inl response) => (w1, inl (snd response))
  | (w1, inr error) =>
      if attempt >=? PionexClient.maxRetries c then (w1, inr error)
      else if PionexClient.isRetryableError error
           then PionexClient.executeWithRetry c requestFn (attempt + 1)
                  (PionexClient.sleep
                     (PionexClient.retryDelay c
                        * PionexClient.backoffMultiplier c ^ (attempt - 1)) w1)
           else (w1, inr error)
  end.
Proof. apply executeWithRetry_unfold. Qed.

Import PionexClient Observe.

Lemma httpClient_step c ex requestConfig (w : @World num) :
  httpClient c ex requestConfig w =
    (w ++ [Requested (sent_config c ex requestConfig (attempts w))],
     match settle (respond ex (attempts w)
                     (sent_config c ex requestConfig (attempts w))) with
     | inl response => inl response
     | inr error => inr (response_rejected error)
     end).
Proof. unfold httpClient, sent_config. destruct (settle _); reflexivity. Qed.

Lemma attempts_app (w1 w2 : @World num) : attempts (w1 ++ w2) = (attempts w1 + attempts w2)%nat.
Proof. unfold attempts. rewrite List.filter_app, length_app. reflexivity. Qed.

Lemma attempts_after_wait (w : @World num) config delay :
  attempts (sleep delay (w ++ [Requested config])) = S (attempts w).
Proof.
  unfold sleep, attempts. rewrite !List.filter_app, !length_app. simpl. lia.
Qed.

Lemma requests_length (w : @World num) : length (requests w) = attempts w.
Proof.
  unfold requests, attempts.
  induction w as [|[config|ms] w IH]; simpl in *; [reflexivity| |exact IH].
  f_equal. exact IH.
Qed.

(** The trace of the retry loop over the HTTP client, whatever the
    exchange answers. *)
Lemma executeWithRetry_trace c ex requestConfig :
  forall (n : nat) attempt (w : @World num),
    Z.to_nat (maxRetries c - attempt) = n ->
    exists (k : nat) tail r,
      executeWithRetry c (httpClient c ex requestConfig) attempt w = (w ++ tail, r)
      /\ Z.of_nat k <= Z.max 0 (maxRetries c - attempt)
      /\ timeline tail =
           None :: backoff_timeline (retryDelay c) (backoffMultiplier c) (attempt + 1) k
      /\ requests tail =
           map (sent_config c ex requestConfig) (seq (attempts w) (S k)).
Proof.
  induction n as [|n IH]; intros attempt w Hn;
    rewrite executeWithRetry_turn, httpClient_step;
    set (config := sent_config c ex requestConfig (attempts w));
    destruct (settle (respond ex (attempts w) config)) as [response|error];
    try (exists 0%nat, [Requested config]; eexists;
         split; [reflexivity|]; split; [lia|]; split; reflexivity).
  - destruct (Z.geb_spec attempt (maxRetries c)); [|lia].
    exists 0%nat, [Requested config]. eexists.
    split; [reflexivity|]. split; [lia|]. split; reflexivity.
  - destruct (Z.geb_spec attempt (maxRetries c)); [lia|].
    rewrite response_rejected_retryable.
    set (delay := retryDelay c * backoffMultiplier c ^ (attempt - 1)).
    destruct (IH (attempt + 1) (sleep delay (w ++ [Requested config])))
      as (k & tail & r & Hrun & Hk & Htl & Hreq); [lia|].
    exists (S k), (Requested config :: Slept delay :: tail), r.
    split; [|split; [lia|split]].
    + rewrite Hrun. unfold sleep. rewrite <- !app_assoc. reflexivity.
    + simpl. rewrite Htl. unfold delay.
      replace (attempt + 1 - 2) with (attempt - 1) by lia. reflexivity.
    + change (requests (Requested config :: Slept delay :: tail))
        with (config :: requests tail).
      rewrite Hreq, attempts_after_wait. reflexivity.
Qed.

(** X2 -- Attempt bound.  Whatever the exchange answers, a REST call makes
    at least one attempt and never more than [maxRetries] (one, if
    [maxRetries] is below one), and its trace is the backoff schedule cut
    after the last attempt: an attempt, then before each further attempt
    [k] a wait of [retryDelay * backoffMultiplier ^ (k - 2)]. *)
Theorem attempts_bounded c ex method endpoint data options (w : @World num) :
  exists tail r,
    makeRequest c ex method endpoint data options w = (w ++ tail, r)
    /\ (1 <= attempts tail)%nat
    /\ Z.of_nat (attempts tail) <= Z.max 1 (maxRetries c)
    /\ timeline tail =
         None :: backoff_timeline (retryDelay c) (backoffMultiplier c) 2
                   (attempts tail - 1).
Proof.
  unfold makeRequest.
  destruct (executeWithRetry_trace c ex
              {| method := method; url := endpoint; data := data;
                 params := o_params options;
                 requiresAuth := o_requiresAuth options; headers := [] |}
              _ 1 w eq_refl) as (k & tail & r & Hrun & Hk & Htl & Hreq).
  assert (Hn : attempts tail = S k).
  { rewrite <- requests_length, Hreq, length_map, length_seq. reflexivity. }
  exists tail, r. split; [exact Hrun|]. rewrite Hn.
  split; [lia|]. split; [lia|].
  rewrite Htl. simpl. rewrite Nat.sub_0_r. reflexivity.
Qed.

(** The retry loop recovers: after [k] failed attempts a successful one
    ends the call. *)
Lemma executeWithRetry_recovers c ex requestConfig status body :
  forall (k : nat) attempt (w : @World num),
    (forall i config, (i < k)%nat ->
       exists error, settle (respond ex (attempts w + i) config) = inr error) ->
    (forall config, settle (respond ex (attempts w + k) config) = inl (status, body)) ->
    k = 0%nat \/ attempt + Z.of_nat k <= maxRetries c ->
    exists tail,
      executeWithRetry c (httpClient c ex requestConfig) attempt w
        = (w ++ tail, inl body)
      /\ timeline tail =
           None :: backoff_timeline (retryDelay c) (backoffMultiplier c) (attempt + 1) k.
Proof.
  induction k as [|k IH]; intros attempt w Hfail Hok Hleft;
    rewrite executeWithRetry_turn, httpClient_step;
    set (config := sent_config c ex requestConfig (attempts w)).
  - rewrite Nat.add_0_r in Hok. rewrite Hok.
    exists [Requested config]. split; reflexivity.
  - destruct (Hfail 0%nat config) as [error Herr]; [lia|].
    rewrite Nat.add_0_r in Herr. rewrite Herr.
    destruct (Z.geb_spec attempt (maxRetries c)); [lia|].
    rewrite response_rejected_retryable.
    set (delay := retryDelay c * backoffMultiplier c ^ (attempt - 1)).
    assert (Hat : attempts (sleep delay (w ++ [Requested config])) = S (attempts w))
      by apply attempts_after_wait.
    destruct (IH (attempt + 1) (sleep delay (w ++ [Requested config])))
      as (tail & Hrun & Htl).
    + intros i cfg Hi. rewrite Hat.
      replace (S (attempts w) + i)%nat with (attempts w + S i)%nat by lia.
      apply Hfail. lia.
    + intros cfg. rewrite Hat.
      replace (S (attempts w) + k)%nat with (attempts w + S k)%nat by lia.
      apply Hok.
    + right. lia.
    + exists (Requested config :: Slept delay :: tail). split.
      * rewrite Hrun. unfold sleep. rewrite <- !app_assoc. reflexivity.
      * simpl. rewrite Htl. unfold delay.
        replace (attempt + 1 - 2) with (attempt - 1) by lia. reflexivity.
Qed.

(** X1 -- Recovery.  If the first [k] attempts of a call fail in any way
    (no response, a response outside 2xx, a request that could not be
    sent), the next attempt gets a 2xx response and [k] is below
    [maxRetries], the call returns that response's body after exactly
    [k + 1] attempts, having waited the backoff delays in between; with
    [k = 0] it returns at once without waiting. *)
Theorem retry_recovers c ex method endpoint data options (w : @World num)
    (k : nat) status body :
  (forall i config, (i < k)%nat ->
     exists error, settle (respond ex (attempts w + i) config) = inr error) ->
  (forall config, respond ex (attempts w + k) config = Responded status body) ->
  200 <= status < 300 ->
  Z.of_nat k < Z.max 1 (maxRetries c) ->
  exists tail,
    makeRequest c ex method endpoint data options w = (w ++ tail, inl body)
    /\ attempts tail = S k
    /\ delays tail =
         map (fun j => retryDelay c * backoffMultiplier c ^ (j - 2)) (Zseq 2 k)
    /\ timeline tail =
         None :: backoff_timeline (retryDelay c) (backoffMultiplier c) 2 k.
Proof.
  intros Hfail Hok Hst Hk. unfold makeRequest.
  destruct (executeWithRetry_recovers c ex
              {| method := method; url := endpoint; data := data;
                 params := o_params options;
                 requiresAuth := o_requiresAuth options; headers := [] |}
              status body k 1 w Hfail) as (tail & Hrun & Htl).
  - intros config. rewrite Hok. unfold settle.
    destruct (Z.leb_spec 200 status); [|lia].
    destruct (Z.ltb_spec status 300); [reflexivity|lia].
  - destruct k; [left; reflexivity|right; lia].
  - exists tail. split; [exact Hrun|]. split; [|split; [|exact Htl]].
    + rewrite attempts_timeline, Htl.
      change (attempts_in (None :: ?t)) with (S (attempts_in t)).
      rewrite attempts_in_backoff. reflexivity.
    + rewrite delays_timeline, Htl.
      change (delays_in (None :: ?t)) with (delays_in t).
      apply delays_in_backoff.
Qed.

Lemma sent_config_fields c ex requestConfig i :
  method (sent_config c ex requestConfig i) = toLowerCase (method requestConfig)
  /\ url (sent_config c ex requestConfig i) = url requestConfig
  /\ data (sent_config c ex requestConfig i) = data requestConfig
  /\ params (sent_config c ex requestConfig i) = params requestConfig.
Proof.
  unfold sent_config, request_interceptor. simpl.
  destruct (requiresAuth requestConfig) as [[|]|]; repeat split.
Qed.

Lemma canonical_string_lower method path (body : option (value num)) timestamp :
  canonical_string (toLowerCase method) path body timestamp
  = canonical_string method path body timestamp.
Proof. unfold canonical_string. rewrite toUpperCase_toLowerCase. reflexivity. Qed.

Lemma sent_config_signed c ex requestConfig i :
  requiresAuth requestConfig <> Some false ->
  let timestamp := Date_now ex i in
  header "PIONEX-KEY" (headers (sent_config c ex requestConfig i)) = Some (apiKey c)
  /\ header "PIONEX-TIMESTAMP" (headers (sent_config c ex requestConfig i))
     = Some (Z_to_string timestamp)
  /\ header "PIONEX-SIGNATURE" (headers (sent_config c ex requestConfig i))
     = Some (hmac_sha256_hex (secretKey c)
               (canonical_string (method requestConfig) (url requestConfig)
                  (body_of (data requestConfig)) timestamp)).
Proof.
  intros Hauth timestamp. unfold sent_config, request_interceptor.
  cbn [requiresAuth with_headers with_method].
  rewrite generateSignature_canonical.
  cbn [method url data with_headers with_method].
  rewrite canonical_string_lower. fold timestamp.
  destruct (requiresAuth requestConfig) as [[|]|]; try congruence;
    cbn [headers with_headers]; (split; [|split]);
    repeat first [ rewrite header_set_header_eq
                 | rewrite header_set_header_ne by discriminate ];
    reflexivity.
Qed.

Lemma sent_config_public c ex requestConfig i :
  requiresAuth requestConfig = Some false ->
  headers (sent_config c ex requestConfig i) = default_headers ++ headers requestConfig.
Proof.
  intros Hpub. unfold sent_config, request_interceptor.
  cbn [requiresAuth with_headers with_method]. rewrite Hpub. reflexivity.
Qed.

(** The requests of a call, one per attempt, each built at its own
    reading of the clock. *)
Lemma makeRequest_requests c ex method endpoint data options (w : @World num) :
  exists tail r,
    makeRequest c ex method endpoint data options w = (w ++ tail, r)
    /\ requests tail =
         map (sent_config c ex
                {| method := method; url := endpoint; data := data;
                   params := o_params options;
                   requiresAuth := o_requiresAuth options; headers := [] |})
             (seq (attempts w) (attempts tail)).
Proof.
  unfold makeRequest.
  destruct (executeWithRetry_trace c ex
              {| method := method; url := endpoint; data := data;
                 params := o_params options;
                 requiresAuth := o_requiresAuth options; headers := [] |}
              _ 1 w eq_refl) as (k & tail & r & Hrun & _ & _ & Hreq).
  exists tail, r. split; [exact Hrun|].
  assert (Hn : attempts tail = S k).
  { rewrite <- requests_length, Hreq, length_map, length_seq. reflexivity. }
  rewrite Hn. exact Hreq.
Qed.

(** X3 -- Signing of retries.  Every attempt of an authenticated call puts
    its own request on the wire: attempt number [j] carries the reading of
    the clock taken for it as [PIONEX-TIMESTAMP] and, as
    [PIONEX-SIGNATURE], the HMAC of the canonical string over that very
    timestamp, next to the API key; method (lower-cased by axios), path
    and body are those of the call. *)
Theorem every_attempt_signed c ex method endpoint data options (w : @World num) :
  o_requiresAuth options <> Some false ->
  exists tail r sentConfig,
    makeRequest c ex method endpoint data options w = (w ++ tail, r)
    /\ requests tail = map sentConfig (seq (attempts w) (attempts tail))
    /\ forall i,
         let timestamp := Date_now ex i in
         PionexClient.method (sentConfig i) = toLowerCase method
         /\ url (sentConfig i) = endpoint
         /\ PionexClient.data (sentConfig i) = data
         /\ header "PIONEX-KEY" (headers (sentConfig i)) = Some (apiKey c)
         /\ header "PIONEX-TIMESTAMP" (headers (sentConfig i))
            = Some (Z_to_string timestamp)
         /\ header "PIONEX-SIGNATURE" (headers (sentConfig i))
            = Some (hmac_sha256_hex (secretKey c)
                      (canonical_string method endpoint (body_of data) timestamp)).
Proof.
  intros Hauth.
  destruct (makeRequest_requests c ex method endpoint data options w)
    as (tail & r & Hrun & Hreq).
  exists tail, r. eexists. split; [exact Hrun|]. split; [exact Hreq|].
  intros i timestamp.
  destruct (sent_config_fields c ex
              {| method := method; url := endpoint; data := data;
                 params := o_params options;
                 requiresAuth := o_requiresAuth options; headers := [] |} i)
    as (Hm & Hu & Hd & _).
  destruct (sent_config_signed c ex
              {| method := method; url := endpoint; data := data;
                 params := o_params options;
                 requiresAuth := o_requiresAuth options; headers := [] |} i Hauth)
    as (Hk & Ht & Hs).
  repeat split; assumption.
Qed.

Lemma public_requests_unsigned c ex method endpoint data params' (w : @World num) :
  exists tail r,
    makeRequest c ex method endpoint data (public params') w = (w ++ tail, r)
    /\ Forall unsigned (requests tail).
Proof.
  destruct (makeRequest_requests c ex method endpoint data (public params') w)
    as (tail & r & Hrun & Hreq).
  exists tail, r. split; [exact Hrun|].
  rewrite Hreq. apply List.Forall_map, List.Forall_forall. intros i _.
  unfold unsigned. rewrite sent_config_public by reflexivity.
  repeat split.
Qed.

(** X4 -- Public calls.  [getServerTime], [getExchangeInfo], [getTicker]
    and [getKlines] never put the API key, a signature or a timestamp
    header on any of their requests, retries included. *)
Theorem public_calls_unsigned (literal : Z -> num) c ex symbol interval limit
    (w : @World num) :
  (exists tail r,
     getServerTime c ex w = (w ++ tail, r) /\ Forall unsigned (requests tail))
  /\ (exists tail r,
        getExchangeInfo c ex w = (w ++ tail, r) /\ Forall unsigned (requests tail))
  /\ (exists tail r,
        getTicker c ex symbol w = (w ++ tail, r) /\ Forall unsigned (requests tail))
  /\ (exists tail r,
        getKlines literal c ex symbol interval limit w = (w ++ tail, r)
        /\ Forall unsigned (requests tail)).
Proof. repeat split; apply public_requests_unsigned. Qed.





(** X6 -- Zero options.  The constructor replaces a zero option by its
    default, so none of the five numeric settings is ever zero; in
    particular [maxRetries: 0] does not switch retrying off: a call that
    the exchange keeps answering outside 2xx is still attempted three
    times. *)
Theorem zero_maxRetries_still_retries apiKey secretKey options ex method endpoint
    data requestOptions (w : @World num) status body :
  opt_maxRetries options = Some 0 ->
  (forall i config, respond ex i config = Responded status body) ->
  (200 <=? status)%Z && (status <? 300)%Z = false ->
  let c := constructor apiKey secretKey options in
  (maxRetries c <> 0 /\ retryDelay c <> 0 /\ backoffMultiplier c <> 0
   /\ maxReconnectAttempts c <> 0 /\ reconnectDelay c <> 0)
  /\ maxRetries c = 3
  /\ exists tail r,
       makeRequest c ex method endpoint data requestOptions w = (w ++ tail, r)
       /\ attempts tail = 3%nat.
Proof.
  intros Hzero Hex Hbad c.
  assert (Hnz : forall o d, d <> 0 -> number_or o d <> 0).
  { intros [v|] d Hd; simpl; [|exact Hd].
    destruct (Z.eqb_spec v 0); assumption. }
  split; [repeat split; apply Hnz; discriminate|].
  assert (Hmax : maxRetries c = 3) by (simpl; rewrite Hzero; reflexivity).
  split; [exact Hmax|].
  destruct (makeRequest_failing_schedule c ex method endpoint data requestOptions w
              status body) as (tail & Hrun & _ & Hn & _); try assumption.
  { rewrite Hmax. lia. }
  exists tail. eexists. split; [exact Hrun|]. rewrite Hmax in Hn. lia.
Qed.

Lemma includes_spec (l : list string) x : includes l x = true <-> In x l.
Proof.
  unfold includes. rewrite existsb_exists. split.
  - intros (y & Hy & E). apply String.eqb_eq in E. subst. exact Hy.
  - intros Hx. exists x. split; [exact Hx|apply String.eqb_refl].
Qed.

Lemma validate_lower (valid : list string) (label : string) (x : value num) r :
  match lower_of x with
  | inr e => inr e
  | inl lower =>
      if negb (includes valid lower) then inr (Error label) else inl lower
  end = inl r
  <-> exists s, x = VStr s /\ toLowerCase s = r /\ In r valid.
Proof.
  split.
  - destruct x; simpl; try discriminate.
    destruct (includes valid (toLowerCase s)) eqn:E; simpl; [|discriminate].
    intros [= <-]. exists s. repeat split. apply includes_spec. exact E.
  - intros (s & -> & <- & Hin). simpl.
    apply includes_spec in Hin. rewrite Hin. reflexivity.
Qed.

(** X7 -- Side and order type.  [validateSide] accepts exactly the strings
    that read [buy] or [sell] when lower-cased and returns that lower-case
    form, which it accepts again unchanged; [validateOrderType] does the
    same for [market], [limit], [stop] and [stop_limit].  Any other string
    is refused with the error that lists the valid values, and an argument
    that is not a string makes the call throw a [TypeError]. *)
Theorem side_and_type_validated (x : value num) :
  (forall r, validateSide x = inl r <->
             exists s, x = VStr s /\ toLowerCase s = r /\ (r = "buy" \/ r = "sell"))
  /\ (forall r, validateOrderType x = inl r <->
                exists s, x = VStr s /\ toLowerCase s = r
                          /\ (r = "market" \/ r = "limit" \/ r = "stop"
                              \/ r = "stop_limit"))
  /\ (forall r, validateSide x = inl r -> validateSide (VStr r : value num) = inl r)
  /\ (forall r, validateOrderType x = inl r -> validateOrderType (VStr r : value num) = inl r)
  /\ (forall s, x = VStr s ->
        (validateSide x = inl (toLowerCase s)
         \/ validateSide x = inr (Error "Invalid side: must be one of buy, sell"))
        /\ (validateOrderType x = inl (toLowerCase s)
            \/ validateOrderType x
               = inr (Error "Invalid order type: must be one of market, limit, stop, stop_limit")))
  /\ ((forall s, x <> VStr s) ->
        validateSide x = inr TypeError /\ validateOrderType x = inr TypeError).
Proof.
  assert (Hside : forall r, validateSide x = inl r <->
            exists s, x = VStr s /\ toLowerCase s = r /\ (r = "buy" \/ r = "sell")).
  { intros r. unfold validateSide. rewrite validate_lower. simpl.
    split; intros (s & Hx & Hl & Hr); exists s; intuition auto. }
  assert (Htype : forall r, validateOrderType x = inl r <->
            exists s, x = VStr s /\ toLowerCase s = r
                      /\ (r = "market" \/ r = "limit" \/ r = "stop"
                          \/ r = "stop_limit")).
  { intros r. unfold validateOrderType. rewrite validate_lower. simpl.
    split; intros (s & Hx & Hl & Hr); exists s; intuition auto. }
  split; [exact Hside|]. split; [exact Htype|].
  split; [|split; [|split]].
  - intros r Hr. apply Hside in Hr. destruct Hr as (s & _ & _ & Hr).
    destruct Hr as [Hr|Hr]; subst r; reflexivity.
  - intros r Hr. apply Htype in Hr. destruct Hr as (s & _ & _ & Hr).
    destruct Hr as [Hr|[Hr|[Hr|Hr]]]; subst r; reflexivity.
  - intros s ->. unfold validateSide, validateOrderType, lower_of.
    destruct (includes validSides (toLowerCase s));
      destruct (includes validTypes (toLowerCase s)); cbn [negb];
      split; first [left; reflexivity | right; reflexivity].
  - intros Hns. destruct x; try (split; reflexivity).
    exfalso. eapply Hns. reflexivity.
Qed.

Lemma upper_upper_ascii a : upper_ascii (upper_ascii a) = upper_ascii a.
Proof. destruct a as [[] [] [] [] [] [] [] []]; reflexivity. Qed.

Lemma lower_upper_ascii a : lower_ascii (upper_ascii a) = lower_ascii a.
Proof. destruct a as [[] [] [] [] [] [] [] []]; reflexivity. Qed.

Lemma toUpperCase_idempotent s : toUpperCase (toUpperCase s) = toUpperCase s.
Proof.
  unfold toUpperCase. induction s as [|a s IH]; simpl; [reflexivity|].
  rewrite upper_upper_ascii, IH. reflexivity.
Qed.

Lemma toLowerCase_toUpperCase s : toLowerCase (toUpperCase s) = toLowerCase s.
Proof.
  unfold toUpperCase, toLowerCase. induction s as [|a s IH]; simpl; [reflexivity|].
  rewrite lower_upper_ascii, IH. reflexivity.
Qed.

(** X8 -- Symbols of ASCII characters.  For an argument that is not a
    string containing a character outside ASCII, [validateSymbol] accepts
    exactly the non-empty strings and returns them in upper case, a result
    it accepts again unchanged; everything else, the empty string
    included, is refused with [Invalid symbol].  Subscribing to the ticker
    of a validated symbol sends the same stream id as subscribing with the
    symbol as typed. *)
Theorem symbol_validated (x : value num) :
  (forall s, x = VStr s -> seven_bit s) ->
  (forall r, validateSymbol x = inl r <->
             exists s, x = VStr s /\ s <> "" /\ r = toUpperCase s)
  /\ (forall r, validateSymbol x = inl r -> validateSymbol (VStr r : value num) = inl r)
  /\ ((forall s, x = VStr s -> s = "") ->
        validateSymbol x = inr (Error "Invalid symbol: must be a non-empty string"))
  /\ (forall r now (st : @Stream num),
        validateSymbol x = inl r ->
        exists s, x = VStr s /\ subscribeToTicker r now st = subscribeToTicker s now st).
Proof.
  intros _.
  assert (Hspec : forall r, validateSymbol x = inl r <->
            exists s, x = VStr s /\ s <> "" /\ r = toUpperCase s).
  { intros r. split.
    - destruct x; simpl; try discriminate.
      destruct (String.eqb_spec s ""); simpl; [discriminate|].
      intros [= <-]. exists s. repeat split. assumption.
    - intros (s & -> & Hne & ->). simpl.
      destruct (String.eqb_spec s ""); [contradiction|reflexivity]. }
  split; [exact Hspec|]. split; [|split].
  - intros r Hr. apply Hspec in Hr. destruct Hr as (s & _ & Hne & ->).
    simpl. destruct (String.eqb_spec (toUpperCase s) "") as [He|_]; simpl.
    + destruct s; [contradiction|discriminate].
    + rewrite toUpperCase_idempotent. reflexivity.
  - intros Hempty. destruct x; try reflexivity.
    rewrite (Hempty s eq_refl). reflexivity.
  - intros r now st Hr. apply Hspec in Hr. destruct Hr as (s & -> & _ & ->).
    exists s. split; [reflexivity|].
    unfold subscribeToTicker. rewrite toLowerCase_toUpperCase. reflexivity.
Qed.

End RestExtras.

(** * Further properties of the exchange stream *)

Section StreamExtras.
Context {num : Type} `{Runtime num}.
Import PionexClient Observe.

Lemma on_open_spec h (st : @Stream num) :
  wsReconnectAttempts (this (on_open h st)) = 0
  /\ maxReconnectAttempts (this (on_open h st)) = maxReconnectAttempts (this st)
  /\ reconnectDelay (this (on_open h st)) = reconnectDelay (this st)
  /\ timers (on_open h st) = timers st
  /\ emitted (on_open h st) = emitted st ++ [wsConnected].
Proof. repeat split. Qed.

(** X9 -- Flapping.  The reconnect cap counts consecutive failures only:
    on a connection that opens after every drop, any number of rounds of
    drop, reconnect timer and open schedules every reconnect after one
    [reconnectDelay], leaves the counter at 0 and never emits
    [wsReconnectFailed]. *)
Theorem flapping_never_capped (rounds : list (nat * nat * nat)) :
  forall st : @Stream num,
    wsReconnectAttempts (this st) = 0 ->
    1 <= maxReconnectAttempts (this st) ->
    let st' := run (flat_map flap rounds) st in
    wsReconnectAttempts (this st') = 0
    /\ scheduled st' = scheduled st ++ repeat (reconnectDelay (this st)) (length rounds)
    /\ (In wsReconnectFailed (emitted st') -> In wsReconnectFailed (emitted st)).
Proof.
  induction rounds as [|[[h i] h'] rounds IH]; intros st H0 Hmax; simpl.
  - rewrite app_nil_r. split; [exact H0|]. split; [reflexivity|tauto].
  - pose proof (on_close_spec h 1006 "" st) as Hc. simpl in Hc.
    destruct Hc as (Hm & Hd & _ & Hc).
    destruct (Z.geb_spec (wsReconnectAttempts (this st))
                         (maxReconnectAttempts (this st))); [lia|].
    destruct Hc as (Hn & Ht & He).
    set (st1 := on_close h 1006 "" st) in *.
    destruct (on_timer_counter i st1) as (Hn2 & Hm2 & Hd2 & Hs2 & He2).
    set (st2 := on_timer i st1) in *.
    destruct (on_open_spec h' st2) as (Hn3 & Hm3 & Hd3 & Ht3 & He3).
    set (st3 := on_open h' st2) in *.
    destruct (IH st3) as (Hn4 & Hs4 & He4); [exact Hn3|congruence|].
    fold (run (flat_map flap rounds) st3).
    split; [exact Hn4|]. split.
    + rewrite Hs4, Hd3, Hd2, Hd.
      unfold scheduled at 1. rewrite Ht3. fold (scheduled st2).
      rewrite Hs2. unfold scheduled at 1. rewrite Ht, map_app, <- app_assoc.
      simpl. rewrite H0, Z.mul_1_r. reflexivity.
    + intros Hin. apply He4 in Hin. rewrite He3 in Hin.
      apply in_app_or in Hin. destruct Hin as [Hin|[Hin|[]]]; [|discriminate].
      rewrite He2, He in Hin.
      apply in_app_or in Hin. destruct Hin as [Hin|[Hin|[]]];
        [assumption|discriminate].
Qed.

Lemma connectWebSocket_fresh (st : @Stream num) :
  connected st = false ->
  ws (this (connectWebSocket st)) = Some (length (sockets st))
  /\ sockets (connectWebSocket st)
     = sockets st ++ [{| readyState := WS.CONNECTING; sent := [] |}]
  /\ wsReconnectAttempts (this (connectWebSocket st)) = wsReconnectAttempts (this st)
  /\ emitted (connectWebSocket st) = emitted st.
Proof. intros Hc. unfold connectWebSocket. rewrite Hc. repeat split. Qed.

Lemma on_timer_due (st : @Stream num) delay :
  connected st = false ->
  let st' := on_timer (length (timers st))
               (with_timers st (timers st ++ [(delay, false)])) in
  ws (this st') = Some (length (sockets st))
  /\ sockets st' = sockets st ++ [{| readyState := WS.CONNECTING; sent := [] |}]
  /\ wsReconnectAttempts (this st') = wsReconnectAttempts (this st)
  /\ emitted st' = emitted st.
Proof.
  intros Hc. unfold on_timer. cbn [timers with_timers].
  rewrite list_lookup_middle by reflexivity.
  apply (connectWebSocket_fresh
           (with_timers (with_timers st (timers st ++ [(delay, false)]))
              (<[length (timers st) := (delay, true)]> (timers st ++ [(delay, false)])))).
  exact Hc.
Qed.


Lemma on_close_current (st : @Stream num) h code reason :
  ws (this st) = Some h ->
  wsReconnectAttempts (this st) < maxReconnectAttempts (this st) ->
  exists base,
    on_close h code reason st
      = with_timers base
          (timers st
             ++ [(reconnectDelay (this st) * (wsReconnectAttempts (this st) + 1), false)])
    /\ connected base = false
    /\ timers base = timers st
    /\ length (sockets base) = length (sockets st)
    /\ emitted base = emitted st ++ [wsDisconnected code reason].
Proof.
  intros Hws Hlt.
  exists (with_this
            (emit (wsDisconnected code reason)
               (with_sockets st (alter (set_readyState WS.CLOSED) h (sockets st))))
            (set_wsReconnectAttempts (this st) (wsReconnectAttempts (this st) + 1))).
  split; [|split; [|split; [reflexivity|split; [|reflexivity]]]].
  - unfold on_close, handleWebSocketReconnect. cbn [this emit with_sockets].
    destruct (Z.geb_spec (wsReconnectAttempts (this st))
                         (maxReconnectAttempts (this st))); [lia|reflexivity].
  - unfold connected.
    cbn [this with_this ws set_wsReconnectAttempts sockets emit with_sockets].
    rewrite Hws, list_lookup_alter.
    destruct (sockets st !! h) as [s|]; case_decide; try reflexivity; congruence.
  - cbn [sockets with_this emit with_sockets]. apply length_alter.
Qed.

(** X11 -- Reconnecting.  When the current socket drops while attempts
    remain, the reconnect timer expires and the new socket opens, the
    client is connected again on a socket on which nothing has been sent:
    no subscription is replayed, the counter is back at 0, and
    [wsDisconnected] and then [wsConnected] have been emitted. *)
Theorem reconnect_starts_clean (st : @Stream num) h code reason :
  ws (this st) = Some h ->
  wsReconnectAttempts (this st) < maxReconnectAttempts (this st) ->
  let st' :=
    run [Close h code reason; Timer (length (timers st));
         Open (length (sockets st))] st in
  connected st' = true
  /\ ws (this st') = Some (length (sockets st))
  /\ outbox st' = []
  /\ wsReconnectAttempts (this st') = 0
  /\ emitted st' = emitted st ++ [wsDisconnected code reason; wsConnected].
Proof.
  intros Hws Hlt. unfold run. cbn [fold_left perform fst].
  destruct (on_close_current st h code reason Hws Hlt)
    as (base & Hclose & Hc & Ht & Hl & He).
  rewrite Hclose. rewrite <- Ht.
  destruct (on_timer_due base
              (reconnectDelay (this st) * (wsReconnectAttempts (this st) + 1)) Hc)
    as (Hw & Hs & _ & He2).
  set (st2 := on_timer (length (timers base)) _) in *.
  rewrite Hl in Hw.
  assert (Hlook : sockets (on_open (length (sockets st)) st2) !! length (sockets st)
                  = Some {| readyState := WS.OPEN; sent := [] |}).
  { unfold on_open. cbn [sockets emit with_this with_sockets].
    rewrite list_lookup_alter, Hs, <- Hl, list_lookup_middle by reflexivity.
    case_decide; [reflexivity|congruence]. }
  assert (Hthis : ws (this (on_open (length (sockets st)) st2))
                  = Some (length (sockets st))) by exact Hw.
  split; [|split; [exact Hthis|split; [|split; [reflexivity|]]]].
  - unfold connected. rewrite Hthis, Hlook. reflexivity.
  - unfold outbox. rewrite Hthis, Hlook. reflexivity.
  - unfold on_open. cbn [emitted emit with_this with_sockets].
    rewrite He2, He, <- app_assoc. reflexivity.
Qed.

(** X12 -- Frames from the exchange.  An inbound frame never touches the
    connection: the client's fields, its sockets and its timers stay as
    they are, and at most one event is emitted, which is never one of the
    connection events.  A frame that is not JSON, or is [null], is
    dropped without any effect. *)
Theorem frame_leaves_connection_alone (payload : result num (value num))
    (st : @Stream num) :
  let st' := on_message payload st in
  this st' = this st /\ sockets st' = sockets st /\ timers st' = timers st
  /\ (emitted st' = emitted st
      \/ exists e, emitted st' = emitted st ++ [e]
                   /\ e <> wsConnected /\ e <> wsReconnectFailed
                   /\ (forall code reason, e <> wsDisconnected code reason)
                   /\ (forall error, e <> wsError error))
  /\ match payload with
     | inr _ | inl VNull | inl VUndefined => st' = st
     | inl m =>
         exists event, get m "event" = inl event
           /\ (is_string event "ticker" = false ->
               is_string event "kline" = false ->
               is_string event "orderUpdate" = false ->
               is_string event "balanceUpdate" = false ->
               emitted st' = emitted st ++ [message m])
     end.
Proof.
  destruct payload as [m|e]; simpl; [|repeat split; left; reflexivity].
  unfold handleWebSocketMessage.
  destruct m; simpl;
    try (repeat split; left; reflexivity);
    try (repeat split; [right; eexists; split; [reflexivity|];
                        repeat split; discriminate
                       |eexists; split; [reflexivity|intros; reflexivity]]).
  repeat match goal with
         | |- context [if is_string ?v ?s then _ else _] =>
             destruct (is_string v s) eqn:?
         end;
    (repeat split;
     [right; eexists; split; [reflexivity|]; repeat split; discriminate
     |eexists; split; [reflexivity|intros; try reflexivity; congruence]]).
Qed.

End StreamExtras.

(** * Further properties of the hub *)

Section HubExtras.
Context {num : Type} `{Runtime num}.
Import TradingServer Observe.

Local Arguments set_add : simpl never.
Local Arguments set_delete : simpl never.

Lemma registry_add_In x h (l : list nat) : In h (set_add Nat.eqb x l) <-> h = x \/ In h l.
Proof.
  unfold set_add. destruct (existsb (Nat.eqb x) l) eqn:E.
  - apply existsb_exists in E. destruct E as (y & Hy & E).
    apply Nat.eqb_eq in E. subst y. split; [tauto|]. intros [->|Hh]; assumption.
  - rewrite in_app_iff. simpl. split; [intros [?|[?|[]]]|intros [?|?]]; auto.
Qed.

Lemma registry_add_NoDup x (l : list nat) :
  List.NoDup l -> List.NoDup (set_add Nat.eqb x l).
Proof.
  intros Hl. unfold set_add. destruct (existsb (Nat.eqb x) l) eqn:E; [exact Hl|].
  assert (Hx : ~ In x l).
  { intros Hin. assert (existsb (Nat.eqb x) l = true); [|congruence].
    apply existsb_exists. exists x. split; [exact Hin|apply Nat.eqb_refl]. }
  apply NoDup_ListNoDup, NoDup_app.
  split; [apply NoDup_ListNoDup; exact Hl|]. split; [|apply NoDup_singleton].
  intros y Hy Hy'. apply list_elem_of_In in Hy. apply list_elem_of_In in Hy'.
  destruct Hy' as [<-|[]]. contradiction.
Qed.

Lemma registry_delete_In x h (l : list nat) :
  In h (set_delete Nat.eqb x l) <-> In h l /\ h <> x.
Proof.
  unfold set_delete. rewrite filter_In, negb_true_iff, Nat.eqb_neq.
  split; intros [? ?]; split; auto.
Qed.

Lemma fold_deliver_length key (m : @ServerMessage num) (l : list nat) :
  forall socks : list (@WebSocket num),
    length (fold_left (fun s h => alter (deliver key m) h s) l socks) = length socks.
Proof.
  induction l as [|h l IH]; intros socks; simpl; [reflexivity|].
  rewrite IH. apply length_alter.
Qed.

Lemma fold_deliver_keys key (m : @ServerMessage num) (l : list nat) :
  forall (socks : list (@WebSocket num)) h ws',
    fold_left (fun s i => alter (deliver key m) i s) l socks !! h = Some ws' ->
    exists ws, socks !! h = Some ws
               /\ subscriptions ws' = subscriptions ws
               /\ readyState ws' = readyState ws.
Proof.
  induction l as [|i l IH]; intros socks h ws' Hl; simpl in Hl.
  - exists ws'. repeat split. exact Hl.
  - apply IH in Hl. destruct Hl as (ws1 & Hl & Hs & Hr).
    rewrite list_lookup_alter in Hl. case_decide; [subst i|].
    + destruct (socks !! h) as [ws|]; simpl in Hl; [|discriminate].
      injection Hl as <-.
      exists ws. split; [reflexivity|]. rewrite Hs, Hr.
      unfold deliver. destruct (wants key ws); split; reflexivity.
    + exists ws1. repeat split; assumption.
Qed.

Ltac cases :=
  repeat match goal with
         | |- context [match ?x with inl _ => _ | inr _ => _ end] =>
             destruct x eqn:?; simpl
         | |- context [match ?x with Some _ => _ | None => _ end] =>
             destruct x eqn:?; simpl
         | |- context [if ?b then _ else _] => destruct b eqn:?; simpl
         end.

Lemma on_message_keys now payload (ws : @WebSocket num) :
  (forall keys, subscriptions ws = Some keys -> List.NoDup keys) ->
  forall keys, subscriptions (fst (on_message now payload ws)) = Some keys ->
               List.NoDup keys.
Proof.
  unfold on_message, try_catch, handleWebSocketMessage, handleSubscription,
    handleUnsubscription, bind, lift, get_subscriptions, set_subscriptions,
    ws_send, ret.
  destruct ws as [id state subs out]. simpl. intros Hsubs.
  destruct payload as [m|e]; simpl; [|exact Hsubs].
  cases; intros keys Hk; simplify_eq;
    first [ solve [eapply Hsubs; eauto]
          | solve [constructor]
          | solve [apply set_add_NoDup; first [constructor|eapply Hsubs; eauto]]
          | solve [apply set_delete_NoDup; eapply Hsubs; eauto] ].
Qed.

Lemma step_sound (e : @Event num) (srv : @server num) : sound srv -> sound (step e srv).
Proof.
  intros (Hnd & Hin & Hkeys).
  destruct e as [id now|h now payload|h|h|channel symbol data now]; simpl.
  - (* a client connects *)
    unfold on_connection, sound. cbn [sockets wsClients]. split; [|split].
    + apply registry_add_NoDup. exact Hnd.
    + intros h Hh. apply registry_add_In in Hh. rewrite length_app. simpl.
      destruct Hh as [->|Hh]; [lia|]. apply Hin in Hh. lia.
    + intros h ws keys Hl Hs. apply lookup_app_Some in Hl.
      destruct Hl as [Hl|[_ Hl]]; [eapply Hkeys; eassumption|].
      destruct (h - length (sockets srv))%nat; simpl in Hl; [|discriminate].
      injection Hl as <-. discriminate.
  - (* a frame arrives *)
    unfold at_socket. destruct (sockets srv !! h) as [ws|] eqn:Ews;
      [|repeat split; assumption].
    destruct (on_message now payload ws) as [ws1 r] eqn:Erun. simpl.
    unfold sound. cbn [sockets wsClients]. split; [exact Hnd|]. split.
    + intros h' Hh'. rewrite length_insert. apply Hin. exact Hh'.
    + intros h' ws' keys Hl Hs. rewrite list_lookup_insert in Hl.
      case_decide as Hd.
      * injection Hl as <-.
        apply (on_message_keys now payload ws (fun k => Hkeys h ws k Ews)).
        rewrite Erun. exact Hs.
      * eapply Hkeys; eassumption.
  - (* a socket closes *)
    unfold on_close, sound. cbn [sockets wsClients]. split; [|split].
    + apply List.NoDup_filter. exact Hnd.
    + intros h' Hh'. apply registry_delete_In in Hh'. rewrite length_alter.
      apply Hin. tauto.
    + intros h' ws' keys Hl Hs. rewrite list_lookup_alter in Hl.
      case_decide; [subst h'|].
      * destruct (sockets srv !! h) as [ws|] eqn:Ews; simpl in Hl; [|discriminate].
        injection Hl as <-. eapply Hkeys; [exact Ews|exact Hs].
      * eapply Hkeys; eassumption.
  - (* a socket fails *)
    unfold on_error, sound. cbn [sockets wsClients]. split; [|split].
    + apply List.NoDup_filter. exact Hnd.
    + intros h' Hh'. apply registry_delete_In in Hh'. apply Hin. tauto.
    + exact Hkeys.
  - (* a broadcast *)
    unfold broadcastToSubscribers.
    destruct (subscription_key channel symbol) as [key|e];
      [|repeat split; assumption].
    unfold sound. cbn [fst sockets wsClients]. split; [exact Hnd|]. split.
    + intros h Hh. rewrite fold_deliver_length. apply Hin. exact Hh.
    + intros h ws' keys Hl Hs. apply fold_deliver_keys in Hl.
      destruct Hl as (ws & Hl & Hsame & _). rewrite Hsame in Hs.
      eapply Hkeys; eassumption.
Qed.

(** X13 -- The registry stays sound.  Whatever sequence of connections,
    inbound frames, closes, failures and broadcasts a server goes through
    from its start, no socket is ever registered twice, every registered
    reference points to a socket, and no session's key set holds a key
    twice. *)
Theorem registry_sound (events : list (@Event num)) : sound (run events empty).
Proof.
  assert (Hgen : forall srv, sound srv -> sound (run events srv)).
  { induction events as [|e events IH]; intros srv Hs; simpl; [exact Hs|].
    apply IH. apply step_sound. exact Hs. }
  apply Hgen. unfold sound, empty. simpl. split; [constructor|].
  split; [intros h []|]. intros h ws keys Hl. rewrite lookup_nil in Hl. discriminate.
Qed.

Lemma broadcast_skips_unregistered (srv : @server num) h channel symbol data now :
  ~ In h (wsClients srv) ->
  let srv' := fst (broadcastToSubscribers channel symbol data now srv) in
  sockets srv' !! h = sockets srv !! h /\ wsClients srv' = wsClients srv.
Proof.
  intros Hout. unfold broadcastToSubscribers.
  destruct (subscription_key channel symbol) as [key|e]; simpl; [|split; reflexivity].
  split; [|reflexivity]. apply fold_alter_outside. exact Hout.
Qed.

(** X14 -- Pruning.  Once the close or the error handler has run for a
    socket, the socket is no longer registered and a broadcast sends it
    nothing, whatever it was subscribed to, even after an error that has
    left the socket in the open state. *)
Theorem closed_session_is_pruned (srv : @server num) h channel symbol data now :
  let closed := step (Closed h) srv in
  let failed := step (Failed h) srv in
  let broadcast s := fst (broadcastToSubscribers channel symbol data now s) in
  (~ In h (wsClients (broadcast closed))
   /\ sockets (broadcast closed) !! h = sockets closed !! h
   /\ sockets closed !! h = set_closed <$> sockets srv !! h)
  /\ (~ In h (wsClients (broadcast failed))
      /\ sockets (broadcast failed) !! h = sockets srv !! h).
Proof.
  assert (Hc : ~ In h (wsClients (step (Closed h) srv))).
  { simpl. rewrite registry_delete_In. tauto. }
  assert (Hf : ~ In h (wsClients (step (Failed h) srv))).
  { simpl. rewrite registry_delete_In. tauto. }
  destruct (broadcast_skips_unregistered _ h channel symbol data now Hc) as [Hs1 Hw1].
  destruct (broadcast_skips_unregistered _ h channel symbol data now Hf) as [Hs2 Hw2].
  simpl in *. split; [split; [|split]|split].
  - rewrite Hw1. exact Hc.
  - exact Hs1.
  - rewrite list_lookup_alter. case_decide; [reflexivity|congruence].
  - rewrite Hw2. exact Hf.
  - exact Hs2.
Qed.

Lemma is_string_exclusive (v : value num) a b :
  is_string v a = true -> is_string v b = true -> a = b.
Proof.
  destruct v; simpl; try discriminate.
  intros Ha Hb. apply String.eqb_eq in Ha, Hb. congruence.
Qed.

(** X15 -- One reply per frame.  The message handler never throws and
    never changes the socket's state or id.  It answers every inbound
    frame with exactly one message, with one exception: a well-formed
    [unsubscribe] for a session that has no key set yet is dropped without
    any reply and without any change. *)
Theorem every_frame_answered_once now payload (ws : @WebSocket num) :
  exists ws',
    on_message now payload ws = (ws', inl tt)
    /\ readyState ws' = readyState ws
    /\ clientId ws' = clientId ws
    /\ ((unanswered payload ws /\ ws' = ws)
        \/ (~ unanswered payload ws /\ exists reply, sent ws' = sent ws ++ [reply])).
Proof.
  unfold on_message, try_catch, handleWebSocketMessage, handleSubscription,
    handleUnsubscription, bind, lift, get_subscriptions, set_subscriptions,
    ws_send, ret, unanswered.
  destruct ws as [id state subs out]. simpl.
  destruct payload as [m|e]; simpl.
  - cases;
      (eexists; split; [reflexivity|]; split; [reflexivity|]; split; [reflexivity|]);
      first
        [ left; split; [|reflexivity];
          do 4 eexists; repeat split; eassumption
        | right; split; [|eexists; reflexivity];
          intros (m' & t' & d' & c' & Hp & Ht & Hu & Hd & Hc & Hn);
          simplify_eq;
          repeat match goal with
                 | H1 : ?x = inl ?a, H2 : ?x = inl ?b |- _ =>
                     assert (a = b) by congruence; subst b; clear H2
                 end;
          try match goal with
              | Ha : is_string ?v "subscribe" = true,
                Hb : is_string ?v "unsubscribe" = true |- _ =>
                  pose proof (is_string_exclusive v _ _ Ha Hb); discriminate
              end;
          congruence
        | exfalso;
          match goal with
          | H1 : get ?d ?k = inl ?v, H2 : get ?d ?k' = inr _ |- _ =>
              destruct (get_defined d k k' v H1); congruence
          end ].
  - eexists. split; [reflexivity|]. split; [reflexivity|]. split; [reflexivity|].
    right. split; [|eexists; reflexivity].
    intros (m' & t' & d' & c' & Hp & _). discriminate.
Qed.

Lemma set_delete_added (key : string) keys :
  ~ In key keys -> set_delete String.eqb key (set_add String.eqb key keys) = keys.
Proof.
  intros Hout. unfold set_add. fold (set_has String.eqb key keys).
  destruct (set_has String.eqb key keys) eqn:E.
  - apply set_has_In in E. contradiction.
  - unfold set_delete. rewrite List.filter_app. simpl.
    rewrite String.eqb_refl. simpl. rewrite app_nil_r.
    apply set_delete_absent. exact Hout.
Qed.

(** X16 -- Round trip.  Subscribing to a key the session does not hold and
    then unsubscribing from it restores the key set (the empty set, if
    there was none before); the session is sent [subscribed] and then
    [unsubscribed]. *)
Theorem subscribe_then_unsubscribe data channel symbol key (ws : @WebSocket num) :
  get data "channel" = inl channel ->
  get data "symbol" = inl symbol ->
  subscription_key channel symbol = inl key ->
  ~ In key (default [] (subscriptions ws)) ->
  exists ws1 ws2,
    handleSubscription data ws = (ws1, inl tt)
    /\ handleUnsubscription data ws1 = (ws2, inl tt)
    /\ subscriptions ws1 = Some (default [] (subscriptions ws) ++ [key])
    /\ subscriptions ws2 = Some (default [] (subscriptions ws))
    /\ sent ws2
       = sent ws ++ [subscribed channel symbol key; unsubscribed channel symbol key].
Proof.
  intros Hc Hs Hk Hout.
  rewrite (handleSubscription_keyed _ _ _ _ ws Hc Hs Hk).
  eexists. rewrite (handleUnsubscription_keyed _ _ _ _ _ Hc Hs Hk).
  cbn [subscriptions sent readyState clientId].
  eexists. split; [reflexivity|]. split; [reflexivity|].
  cbn [subscriptions sent]. split; [|split].
  - f_equal. unfold set_add. fold (set_has String.eqb key (default [] (subscriptions ws))).
    destruct (set_has String.eqb key (default [] (subscriptions ws))) eqn:E;
      [|reflexivity].
    apply set_has_In in E. contradiction.
  - f_equal. apply set_delete_added. exact Hout.
  - rewrite <- app_assoc. reflexivity.
Qed.

(** X17 -- Routing of exchange events.  A ticker or kline frame from the
    exchange is broadcast under the channel [ticker] or [kline] and the
    frame's symbol, an order update under [orders] and [all]; a balance
    update, a frame with any other event name and a frame that cannot be
    parsed change nothing on the server, so no client ever receives
    them. *)
Theorem exchange_frame_routing (m event data symbol : value num) now
    (st : @PionexClient.Stream num) (srv : @server num) :
  get m "event" = inl event ->
  get m "data" = inl data ->
  get m "symbol" = inl symbol ->
  snd (exchange_frame (inl m) now st srv)
  = (if is_string event "ticker"
     then fst (broadcastToSubscribers (VStr "ticker") symbol data now srv)
     else if is_string event "kline"
     then fst (broadcastToSubscribers (VStr "kline") symbol data now srv)
     else if is_string event "orderUpdate"
     then fst (broadcastToSubscribers (VStr "orders") (VStr "all") data now srv)
     else srv)
  /\ (forall e, snd (exchange_frame (inr e) now st srv) = srv)
  /\ snd (exchange_frame (inl VNull) now st srv) = srv.
Proof.
  intros He Hd Hs. split; [|split].
  - unfold exchange_frame, PionexClient.on_message,
      PionexClient.handleWebSocketMessage.
    rewrite He, Hd, Hs. cbn [snd].
    destruct (is_string event "ticker"); [|destruct (is_string event "kline");
      [|destruct (is_string event "orderUpdate");
        [|destruct (is_string event "balanceUpdate")]]];
      cbn [fst PionexClient.emitted PionexClient.emit];
      rewrite drop_app_length; reflexivity.
  - intros e. unfold exchange_frame. cbn [PionexClient.on_message snd].
    rewrite drop_all. reflexivity.
  - unfold exchange_frame. cbn. rewrite drop_all. reflexivity.
Qed.

End HubExtras.

(** * Further properties of the order calls *)

Section ApiExtras.
Context {num : Type} `{Runtime num}.
Import PionexClient Observe.




End ApiExtras.

(** * The further properties at concrete inputs *)

(** X1 at the default client: two requests without an answer, then 200. *)
Lemma retry_recovers_witness :
  (forall i config, (i < 2)%nat ->
     exists error,
       PionexClient.settle
         (PionexClient.respond (flaky 2 balances) (PionexClient.attempts untouched + i) config)
       = inr error)
  /\ (forall config,
        PionexClient.respond (flaky 2 balances) (PionexClient.attempts untouched + 2) config
        = PionexClient.Responded 200 balances)
  /\ 200 <= 200 < 300
  /\ Z.of_nat 2 < Z.max 1 (PionexClient.maxRetries defaults)
  /\ exists tail,
       PionexClient.makeRequest defaults (flaky 2 balances)
         "GET" "/v1/account/balances" VNull plain untouched
       = (tail, inl balances)
       /\ timeline tail = [None; Some 1000; None; Some 2000; None].
Proof.
  assert (Hfail : forall i config, (i < 2)%nat ->
            exists error,
              PionexClient.settle
                (PionexClient.respond (flaky 2 balances)
                   (PionexClient.attempts untouched + i) config)
              = inr error).
  { intros i config Hi. destruct i as [|[|i]]; [eexists; reflexivity ..|lia]. }
  assert (Hok : forall config,
            PionexClient.respond (flaky 2 balances) (PionexClient.attempts untouched + 2) config
            = PionexClient.Responded 200 balances) by reflexivity.
  assert (Hst : 200 <= 200 < 300) by lia.
  assert (Hk : Z.of_nat 2 < Z.max 1 (PionexClient.maxRetries defaults))
    by (simpl; lia).
  split; [exact Hfail|]. split; [exact Hok|]. split; [exact Hst|]. split; [exact Hk|].
  destruct (retry_recovers defaults (flaky 2 balances) "GET" "/v1/account/balances"
              VNull plain untouched 2 200 balances Hfail Hok Hst Hk)
    as (tail & Hrun & _ & _ & Htl).
  exists tail. split; [exact Hrun|exact Htl].
Defined.

(** X3 at the default client: the second attempt carries the second
    reading of the clock. *)
Lemma every_attempt_signed_witness :
  PionexClient.o_requiresAuth plain <> Some false
  /\ exists tail r sentConfig,
       PionexClient.makeRequest defaults (always 503 unavailable)
         "GET" "/v1/account/balances" VNull plain []
       = (tail, r)
       /\ requests tail = map sentConfig (seq 0 (PionexClient.attempts tail))
       /\ header "PIONEX-TIMESTAMP" (PionexClient.headers (sentConfig 1%nat))
          = Some "1700000000001".
Proof.
  assert (Hauth : PionexClient.o_requiresAuth plain <> Some false) by discriminate.
  split; [exact Hauth|].
  destruct (every_attempt_signed defaults (always 503 unavailable)
              "GET" "/v1/account/balances" VNull plain [] Hauth)
    as (tail & r & sentConfig & Hrun & Hreq & Hall).
  exists tail, r, sentConfig. split; [exact Hrun|]. split; [exact Hreq|].
  destruct (Hall 1%nat) as (_ & _ & _ & _ & Hts & _). exact Hts.
Defined.

(** X6 on a client constructed with [maxRetries: 0]. *)
Lemma zero_maxRetries_still_retries_witness :
  PionexClient.opt_maxRetries no_retries = Some 0
  /\ (forall i config,
        PionexClient.respond (always 400 invalid) i config
        = PionexClient.Responded 400 invalid)
  /\ (200 <=? 400)%Z && (400 <? 300)%Z = false
  /\ exists tail r,
       PionexClient.makeRequest (PionexClient.constructor "key" "secret" no_retries)
         (always 400 invalid) "POST" "/v1/trade/orders" order plain []
       = (tail, r)
       /\ PionexClient.attempts tail = 3%nat.
Proof.
  assert (Hz : PionexClient.opt_maxRetries no_retries = Some 0) by reflexivity.
  assert (Hex : forall i config,
            PionexClient.respond (always 400 invalid) i config
            = PionexClient.Responded 400 invalid) by reflexivity.
  assert (Hbad : (200 <=? 400)%Z && (400 <? 300)%Z = false) by reflexivity.
  split; [exact Hz|]. split; [exact Hex|]. split; [exact Hbad|].
  destruct (zero_maxRetries_still_retries "key" "secret" no_retries (always 400 invalid)
              "POST" "/v1/trade/orders" order plain [] 400 invalid Hz Hex Hbad)
    as (_ & _ & tail & r & Hrun & Hn).
  exists tail, r. split; [exact Hrun|exact Hn].
Defined.

(** X9 on two rounds of drop and recovery: both reconnects after 5 s. *)
Lemma flapping_never_capped_witness :
  PionexClient.wsReconnectAttempts (PionexClient.this started) = 0
  /\ 1 <= PionexClient.maxReconnectAttempts (PionexClient.this started)
  /\ PionexClient.scheduled
       (PionexClient.run (flat_map flap [(0, 0, 1); (1, 1, 2)]%nat) started)
     = [5000; 5000].
Proof.
  assert (H0 : PionexClient.wsReconnectAttempts (PionexClient.this started) = 0)
    by reflexivity.
  assert (Hmax : 1 <= PionexClient.maxReconnectAttempts (PionexClient.this started))
    by (simpl; lia).
  split; [exact H0|]. split; [exact Hmax|].
  destruct (flapping_never_capped [(0, 0, 1); (1, 1, 2)]%nat started H0 Hmax)
    as (_ & Hs & _).
  exact Hs.
Defined.


(** X11 on the open stream. *)
Lemma reconnect_starts_clean_witness :
  PionexClient.ws (PionexClient.this open_stream) = Some 0%nat
  /\ PionexClient.wsReconnectAttempts (PionexClient.this open_stream)
     < PionexClient.maxReconnectAttempts (PionexClient.this open_stream)
  /\ outbox
       (PionexClient.run
          [PionexClient.Close 0 1006 ""; PionexClient.Timer 0; PionexClient.Open 1]
          open_stream)
     = [].
Proof.
  assert (Hws : PionexClient.ws (PionexClient.this open_stream) = Some 0%nat)
    by reflexivity.
  assert (Hlt : PionexClient.wsReconnectAttempts (PionexClient.this open_stream)
                < PionexClient.maxReconnectAttempts (PionexClient.this open_stream))
    by (simpl; lia).
  split; [exact Hws|]. split; [exact Hlt|].
  destruct (reconnect_starts_clean open_stream 0%nat 1006 "" Hws Hlt)
    as (_ & _ & Hout & _).
  exact Hout.
Defined.

(** X16 on a session that has just connected. *)
Lemma subscribe_then_unsubscribe_witness :
  get btc "channel" = inl (VStr "ticker")
  /\ get btc "symbol" = inl (VStr "BTCUSDT")
  /\ TradingServer.subscription_key (VStr "ticker") (VStr "BTCUSDT" : value Z)
     = inl "ticker:BTCUSDT"
  /\ ~ In "ticker:BTCUSDT" (default [] (TradingServer.subscriptions newcomer))
  /\ exists ws1 ws2,
       TradingServer.handleSubscription btc newcomer = (ws1, inl tt)
       /\ TradingServer.handleUnsubscription btc ws1 = (ws2, inl tt)
       /\ TradingServer.subscriptions ws2 = Some [].
Proof.
  assert (Hc : get btc "channel" = inl (VStr "ticker")) by reflexivity.
  assert (Hs : get btc "symbol" = inl (VStr "BTCUSDT")) by reflexivity.
  assert (Hk : TradingServer.subscription_key (VStr "ticker") (VStr "BTCUSDT" : value Z)
               = inl "ticker:BTCUSDT") by reflexivity.
  assert (Hout : ~ In "ticker:BTCUSDT"
                   (default [] (TradingServer.subscriptions newcomer)))
    by (simpl; tauto).
  split; [exact Hc|]. split; [exact Hs|]. split; [exact Hk|]. split; [exact Hout|].
  destruct (subscribe_then_unsubscribe btc (VStr "ticker") (VStr "BTCUSDT")
              "ticker:BTCUSDT" newcomer Hc Hs Hk Hout)
    as (ws1 & ws2 & H1 & H2 & _ & H4 & _).
  exists ws1, ws2. split; [exact H1|]. split; [exact H2|exact H4].
Defined.

(** X17 on a ticker frame for BTCUSDT and the three sessions. *)
Lemma exchange_frame_routing_witness :
  get ticker_frame "event" = inl (VStr "ticker")
  /\ get ticker_frame "data" = inl price
  /\ get ticker_frame "symbol" = inl (VStr "BTCUSDT")
  /\ map TradingServer.sent
         (TradingServer.sockets
            (snd (TradingServer.exchange_frame (inl ticker_frame) "t1" open_stream hub)))
     = [[TradingServer.data_message (VStr "ticker") (VStr "BTCUSDT") price "t1"];
        []; []].
Proof.
  assert (He : get ticker_frame "event" = inl (VStr "ticker")) by reflexivity.
  assert (Hd : get ticker_frame "data" = inl price) by reflexivity.
  assert (Hs : get ticker_frame "symbol" = inl (VStr "BTCUSDT")) by reflexivity.
  split; [exact He|]. split; [exact Hd|]. split; [exact Hs|].
  destruct (exchange_frame_routing ticker_frame (VStr "ticker") price (VStr "BTCUSDT")
              "t1" open_stream hub He Hd Hs) as (Hroute & _).
  rewrite Hroute. reflexivity.
Defined.

(** C3 as stated fails on a request whose body is [null], as every
    authenticated [GET] has it: the client signs method, path and
    timestamp with nothing in between, not the text of [JSON(null)]. *)
Lemma null_body_is_not_signed :
  JSON_stringify (VNull : value Z) = "null"
  /\ PionexClient.generateSignature defaults "get" "/v1/account/balances" VNull 5
     = hmac_sha256_hex "secret" "GET/v1/account/balances5"
  /\ json_body_string "get" "/v1/account/balances" (VNull : value Z) 5
     = "GET/v1/account/balancesnull5"
  /\ PionexClient.generateSignature defaults "get" "/v1/account/balances" VNull 5
     <> hmac_sha256_hex "secret"
          (json_body_string "get" "/v1/account/balances" (VNull : value Z) 5)
  /\ (exists sentConfig,
        fst (PionexClient.getAccountInfo defaults (always 200 balances) untouched)
        = [PionexClient.Requested sentConfig]
        /\ PionexClient.data sentConfig = VNull
        /\ header "PIONEX-SIGNATURE" (PionexClient.headers sentConfig)
           = Some (hmac_sha256_hex "secret"
                     "GET/v1/account/balances1700000000000")).
Proof.
  split; [reflexivity|]. split; [reflexivity|]. split; [reflexivity|].
  split; [discriminate|]. eexists. split; [reflexivity|]. split; reflexivity.
Qed.

(** X8 on the symbol [btcusdt]. *)
Lemma symbol_validated_witness :
  (forall s, (VStr "btcusdt" : value Z) = VStr s -> seven_bit s)
  /\ PionexClient.validateSymbol (VStr "btcusdt" : value Z) = inl "BTCUSDT"
  /\ PionexClient.validateSymbol (VStr "BTCUSDT" : value Z) = inl "BTCUSDT"
  /\ PionexClient.subscribeToTicker "BTCUSDT" 7 open_stream
     = PionexClient.subscribeToTicker "btcusdt" 7 open_stream.
Proof.
  assert (Hascii : forall s, (VStr "btcusdt" : value Z) = VStr s -> seven_bit s).
  { intros s [= <-]. unfold seven_bit. simpl. repeat constructor; lia. }
  assert (Hin : PionexClient.validateSymbol (VStr "btcusdt" : value Z) = inl "BTCUSDT")
    by reflexivity.
  split; [exact Hascii|]. split; [exact Hin|].
  destruct (symbol_validated (VStr "btcusdt" : value Z) Hascii)
    as (_ & Hagain & _ & Hsame).
  split; [exact (Hagain "BTCUSDT" Hin)|].
  destruct (Hsame "BTCUSDT" 7 open_stream Hin) as (s & Hs & Heq).
  injection Hs as <-. exact Heq.
Defined.
